(** * The base Variable implementation of python-oracledb (impl/base/var.pyx)

    A shallow embedding of [BaseVarImpl]: the variable is a record, every
    method is a function in a state-and-exception monad over that record,
    and an exception leaves behind whatever the method had already written
    (Python does not roll an object back when a method raises). *)

From Stdlib Require Import NArith String.
From stdpp Require Import base option list gmap.

Set Warnings "-register-all".
Local Open Scope N_scope.

(** ** Python values *)

(** The dynamically typed values handed to a bind.  The methods below only
    look at three things: whether a value is [None], whether it is a list,
    and its [len]. *)
Inductive pyobj : Type :=
| PyNone
| PyBool (b : bool)
| PyInt (z : Z)
| PyStr (s : string)
| PyBytes (bs : list N)
| PyList (items : list pyobj).

(** [value is not None] *)
Definition is_not_none (value : pyobj) : bool :=
  match value with PyNone => false | _ => true end.

(** [len(value)]; [None] stands for the TypeError of an unsized object. *)
Definition py_len (value : pyobj) : option N :=
  match value with
  | PyStr s => Some (N.of_nat (String.length s))
  | PyBytes bs => Some (N.of_nat (length bs))
  | PyList items => Some (N.of_nat (length items))
  | _ => None
  end.

(** ** C integers *)

(** Conversion of a C integer to [uint32_t]: reduction modulo 2^32. *)
Definition to_uint32 (n : N) : N := n mod 2 ^ 32.

(** ** Exceptions *)

(** The four driver errors var.pyx raises through [errors._raise_err],
    the Python exceptions it raises or runs into ([IndexError],
    [TypeError] from [len], [AttributeError] from an unset metadata), and
    the exceptions of its collaborators, by origin: [ArgumentTypeError]
    from [_check_value], [CatalogError] from the metadata constructors,
    [ConverterError] for whatever the caller's in converter raised. *)
Inductive exn : Type :=
| ERR_EXPECTING_LIST_FOR_ARRAY_VAR
| ERR_INCORRECT_VAR_ARRAYSIZE (var_arraysize required_arraysize : N)
| ERR_MIXED_ELEMENT_TYPES (element : pyobj)
| ERR_ARRAYS_OF_ARRAYS
| IndexError (msg : string)
| TypeError
| AttributeError
| ArgumentTypeError
| CatalogError
| ConverterError (tag : N).

Inductive outcome (A : Type) : Type :=
| Ok (a : A)
| Raise (e : exn).
Arguments Ok {A} a.
Arguments Raise {A} e.

(** ** The type catalog *)

(** Database type tags.  The two constants named by var.pyx are
    constructors; every other catalog entry is identified by its number.
    Python's [is] on these singletons is equality of tags. *)
Inductive DbType : Type :=
| DB_TYPE_BOOLEAN
| DB_TYPE_BINARY_INTEGER
| DB_TYPE_NUM (num : N).

#[global] Instance DbType_eq_dec : EqDecision DbType.
Proof. solve_decision. Defined.

Record OracleMetadata : Type := mkMetadata {
  dbtype : DbType;
  objtype : option N;
  max_size : N;
  buffer_size : N
}.

Definition with_dbtype (t : DbType) (md : OracleMetadata) : OracleMetadata :=
  mkMetadata t (objtype md) (max_size md) (buffer_size md).
Definition with_max_size (n : N) (md : OracleMetadata) : OracleMetadata :=
  mkMetadata (dbtype md) (objtype md) n (buffer_size md).
Definition with_buffer_size (n : N) (md : OracleMetadata) : OracleMetadata :=
  mkMetadata (dbtype md) (objtype md) (max_size md) n.

(** The parts of [DbType] and [OracleMetadata] that var.pyx calls but that
    are declared elsewhere: the [default_size] attribute of a database
    type, [OracleMetadata._finalize_init], and the constructors
    [OracleMetadata.from_value] and [OracleMetadata.from_type] ([None] when
    the catalog has no entry for the argument). *)
Class TypeCatalog : Type := {
  default_size : DbType → N;
  metadata_finalize_init : OracleMetadata → OracleMetadata;
  from_value : pyobj → option OracleMetadata;
  from_type : pyobj → option OracleMetadata
}.

(** ** The connection *)

(** What a variable uses of its connection: the [supports_bool] capability
    and the acceptability table behind [_check_value].  [accepts md v] is
    the value to store (possibly adjusted) or [None] when [v] is not
    acceptable for [md]. *)
Record BaseConnImpl : Type := mkConn {
  supports_bool : bool;
  accepts : option OracleMetadata → pyobj → option pyobj
}.

(** The [bint* was_set] argument: [None] is the NULL pointer, [Some b] a
    pointer to a flag that currently holds [b].  A method that receives the
    pointer returns the flag's content on exit. *)
Definition was_set_ptr : Type := option bool.

(** [was_set != NULL and not was_set[0]] *)
Definition cleared (was_set : was_set_ptr) : bool :=
  match was_set with Some false => true | _ => false end.

(** Modelled from the spec: [BaseConnImpl._check_value] is not among the
    sources.  Following the docstring of [_check_and_set_scalar_value] and
    section 4.5 of the spec, an acceptable value is returned (possibly
    adjusted); an unacceptable one raises when the pointer is NULL and
    clears the flag otherwise. *)
Definition _check_value (conn : BaseConnImpl) (md : option OracleMetadata)
    (value : pyobj) (was_set : was_set_ptr) : outcome (pyobj * was_set_ptr) :=
  match accepts conn md value with
  | Some value' => Ok (value', was_set)
  | None =>
      match was_set with
      | None => Raise ArgumentTypeError
      | Some _ => Ok (value, Some false)
      end
  end.

(** ** The variable *)

Record BaseVarImpl : Type := mkVar {
  _conn_impl : BaseConnImpl;
  metadata : option OracleMetadata;
  inconverter : option (pyobj → N + pyobj);
  is_array : bool;
  num_elements : N;
  num_elements_in_array : N;
  _is_value_set : bool;
  _values : gmap N pyobj
}.

Definition with_metadata (md : option OracleMetadata) (self : BaseVarImpl) :=
  mkVar (_conn_impl self) md (inconverter self) (is_array self)
        (num_elements self) (num_elements_in_array self)
        (_is_value_set self) (_values self).
Definition with_num_elements (n : N) (self : BaseVarImpl) :=
  mkVar (_conn_impl self) (metadata self) (inconverter self) (is_array self)
        n (num_elements_in_array self) (_is_value_set self) (_values self).
Definition with_num_elements_in_array (n : N) (self : BaseVarImpl) :=
  mkVar (_conn_impl self) (metadata self) (inconverter self) (is_array self)
        (num_elements self) n (_is_value_set self) (_values self).
Definition with_is_value_set (b : bool) (self : BaseVarImpl) :=
  mkVar (_conn_impl self) (metadata self) (inconverter self) (is_array self)
        (num_elements self) (num_elements_in_array self) b (_values self).
Definition with_values (vs : gmap N pyobj) (self : BaseVarImpl) :=
  mkVar (_conn_impl self) (metadata self) (inconverter self) (is_array self)
        (num_elements self) (num_elements_in_array self)
        (_is_value_set self) vs.

(** ** The method monad *)

Definition M (A : Type) : Type := BaseVarImpl → outcome A * BaseVarImpl.

Definition ret {A} (a : A) : M A := λ self, (Ok a, self).
Definition raise {A} (e : exn) : M A := λ self, (Raise e, self).
Definition bind {A B} (m : M A) (k : A → M B) : M B :=
  λ self,
    match m self with
    | (Ok a, self') => k a self'
    | (Raise e, self') => (Raise e, self')
    end.
Definition get : M BaseVarImpl := λ self, (Ok self, self).
Definition modify (f : BaseVarImpl → BaseVarImpl) : M unit :=
  λ self, (Ok tt, f self).
Definition lift {A} (o : outcome A) : M A := λ self, (o, self).

#[global] Instance var_ret : MRet M := @ret.
#[global] Instance var_bind : MBind M := λ A B k m, bind m k.

(** [self.metadata.<attr>]: reading through an unset metadata fails. *)
Definition bound_metadata : M OracleMetadata :=
  self ← get;
  match metadata self with
  | Some md => ret md
  | None => raise AttributeError
  end.

(** ** The slot store *)

(** Modelled from the spec: [_set_scalar_value], [_get_scalar_value] and
    [_get_array_value] raise NotImplementedError in the base class and are
    supplied by the driver-specific subclasses, which are not among the
    sources.  Section 4.5 (step 4: store the value at the position) and
    section 9 (an arena of slots indexed by position) give the store: a
    finite map from position to the value last stored there. *)
Definition _set_scalar_value (pos : N) (value : pyobj) : M unit :=
  modify (λ self, with_values (<[pos := value]> (_values self)) self).

Definition _get_scalar_value (pos : N) : M pyobj :=
  self ← get;
  ret (default PyNone (_values self !! pos)).

Fixpoint slots_from (vs : gmap N pyobj) (pos : N) (count : nat) : list pyobj :=
  match count with
  | O => []
  | S count' => default PyNone (vs !! pos) :: slots_from vs (N.succ pos) count'
  end.

Definition _get_array_value : M pyobj :=
  self ← get;
  ret (PyList (slots_from (_values self) 0
                          (N.to_nat (num_elements_in_array self)))).

(** ** The methods of [BaseVarImpl] *)

Section methods.
Context `{catalog : TypeCatalog}.

(** [_resize]: lines 143-149. *)
Definition _resize (new_size : N) : M unit :=
  md ← bound_metadata;
  modify (with_metadata
            (Some (metadata_finalize_init
                     (with_buffer_size 0 (with_max_size new_size md))))).

(** The call of the in converter, lines 55-57. *)
Definition call_inconverter (value : pyobj) : M pyobj :=
  self ← get;
  match inconverter self with
  | None => ret value
  | Some f =>
      match f value with
      | inr value' => ret value'
      | inl tag => raise (ConverterError tag)
      end
  end.

(** The block "resize variable, if applicable", lines 64-68. *)
Definition resize_if_applicable (value : pyobj) : M unit :=
  if is_not_none value then
    md ← bound_metadata;
    if negb (default_size (dbtype md) =? 0) then
      match py_len value with
      | None => raise TypeError
      | Some n =>
          let size := to_uint32 n in
          if max_size md <? size then _resize size else ret tt
      end
    else ret tt
  else ret tt.

(** [_check_and_set_scalar_value]: lines 43-72. *)
Definition _check_and_set_scalar_value (pos : N) (value : pyobj)
    (was_set : was_set_ptr) : M was_set_ptr :=
  value ← call_inconverter value;
  self ← get;
  '(value, was_set) ←
    lift (_check_value (_conn_impl self) (metadata self) value was_set);
  if cleared was_set then ret was_set
  else
    resize_if_applicable value;;
    _set_scalar_value pos value;;
    modify (with_is_value_set true);;
    ret was_set.

(** [_set_num_elements_in_array]: lines 177-181. *)
Definition _set_num_elements_in_array (num_elements : N) : M unit :=
  modify (with_num_elements_in_array num_elements).

(** The loop of lines 107-110.  The counter [i] is a [uint32_t]; the
    result says whether the loop left the method through the [return]
    of line 110, and gives the flag. *)
Fixpoint check_and_set_elements (i : N) (elements : list pyobj)
    (was_set : was_set_ptr) : M (bool * was_set_ptr) :=
  match elements with
  | [] => ret (false, was_set)
  | element_value :: rest =>
      was_set ← _check_and_set_scalar_value (to_uint32 i) element_value
                                            was_set;
      if cleared was_set then ret (true, was_set)
      else check_and_set_elements (N.succ i) rest was_set
  end.

(** [_check_and_set_value]: lines 74-111. *)
Definition _check_and_set_value (pos : N) (value : pyobj)
    (was_set : was_set_ptr) : M was_set_ptr :=
  self ← get;
  if negb (is_array self) then
    _check_and_set_scalar_value pos value was_set
  else
    match value with
    | PyList elements =>
        let n := to_uint32 (N.of_nat (length elements)) in
        if num_elements self <? n then
          match was_set with
          | Some _ => ret (Some false)
          | None =>
              raise (ERR_INCORRECT_VAR_ARRAYSIZE (num_elements self) n)
          end
        else
          '(returned, was_set) ← check_and_set_elements 0 elements was_set;
          if (returned : bool) then ret was_set
          else
            _set_num_elements_in_array n;;
            ret was_set
    | _ =>
        match was_set with
        | Some _ => ret (Some false)
        | None => raise ERR_EXPECTING_LIST_FOR_ARRAY_VAR
        end
    end.

(** [_finalize_init]: lines 113-119. *)
Definition _finalize_init : M unit :=
  md ← bound_metadata;
  modify (with_metadata (Some (metadata_finalize_init md)));;
  self ← get;
  if num_elements self =? 0 then modify (with_num_elements 1) else ret tt.

(** [_on_reset_bind]: lines 134-141. *)
Definition _on_reset_bind (num_rows : N) : M unit :=
  self ← get;
  if num_elements self <? num_rows then
    modify (with_num_elements num_rows);;
    _finalize_init
  else ret tt.

(** [_set_metadata_from_type]: lines 151-155. *)
Definition _set_metadata_from_type (typ : pyobj) : M unit :=
  match from_type typ with
  | Some md => modify (with_metadata (Some md))
  | None => raise CatalogError
  end.

(** Lines 165-168 of [_set_metadata_from_value]: the metadata of the
    value, with the boolean fallback applied. *)
Definition inferred_metadata (conn : BaseConnImpl) (value : pyobj)
    (is_plsql : bool) : option OracleMetadata :=
  md ← from_value value;
  Some (if bool_decide (dbtype md = DB_TYPE_BOOLEAN)
           && negb (supports_bool conn) && negb is_plsql
        then with_dbtype DB_TYPE_BINARY_INTEGER md
        else md).

(** [_set_metadata_from_value]: lines 157-175. *)
Definition _set_metadata_from_value (value : pyobj) (is_plsql : bool)
    : M unit :=
  self ← get;
  match inferred_metadata (_conn_impl self) value is_plsql with
  | None => raise CatalogError
  | Some md =>
      match metadata self with
      | None => modify (with_metadata (Some md))
      | Some own =>
          if negb (bool_decide (dbtype md = dbtype own))
             || negb (bool_decide (objtype md = objtype own))
          then raise (ERR_MIXED_ELEMENT_TYPES value)
          else if max_size own <? max_size md
          then modify (with_metadata
                         (Some (with_max_size (max_size md) own)))
          else ret tt
      end
  end.

(** [get_value]: lines 200-208. *)
Definition get_value (pos : N) : M pyobj :=
  self ← get;
  if is_array self then _get_array_value
  else if num_elements self <=? pos
  then raise (IndexError "position out of range")
  else _get_scalar_value pos.

(** [set_value]: lines 210-220. *)
Definition set_value (pos : N) (value : pyobj) : M unit :=
  self ← get;
  (if is_array self then
     if 0 <? pos then raise ERR_ARRAYS_OF_ARRAYS else ret tt
   else if num_elements self <=? pos
   then raise (IndexError "position out of range")
   else ret tt);;
  _check_and_set_value pos value None;;
  ret tt.

End methods.

(** [get_all_values]: lines 190-198. *)
Definition get_all_values : M pyobj :=
  self ← get;
  if is_array self then _get_array_value
  else ret (PyList (slots_from (_values self) 0
                               (N.to_nat (num_elements self)))).

(** ** A small catalog and connection for the worked examples *)

Module Sample.

Definition DB_TYPE_VARCHAR : DbType := DB_TYPE_NUM 1.
Definition DB_TYPE_NUMBER : DbType := DB_TYPE_NUM 2.

(** Strings are sized (4000 by default), every other type is not;
    finalizing fills in a missing size and the buffer size. *)
#[global] Instance catalog : TypeCatalog := {|
  default_size t := match t with DB_TYPE_NUM 1 => 4000 | _ => 0 end;
  metadata_finalize_init md :=
    match dbtype md with
    | DB_TYPE_NUM 1 =>
        let size := if max_size md =? 0 then 4000 else max_size md in
        with_buffer_size size (with_max_size size md)
    | _ => with_buffer_size 8 (with_max_size 0 md)
    end;
  from_value v :=
    match v with
    | PyBool _ => Some (mkMetadata DB_TYPE_BOOLEAN None 0 0)
    | PyInt _ => Some (mkMetadata DB_TYPE_NUMBER None 0 0)
    | PyStr s =>
        Some (mkMetadata DB_TYPE_VARCHAR None (N.of_nat (String.length s)) 0)
    | _ => None
    end;
  from_type _ := None
|}.

(** A connection that takes strings for string variables and integers
    (booleans are adjusted to integers) for numeric ones; [None] goes
    anywhere. *)
Definition conn (native_bool : bool) : BaseConnImpl := {|
  supports_bool := native_bool;
  accepts md v :=
    match md, v with
    | Some _, PyNone => Some PyNone
    | Some (mkMetadata (DB_TYPE_NUM 1) _ _ _), PyStr s => Some (PyStr s)
    | Some (mkMetadata (DB_TYPE_NUM 2) _ _ _), PyInt z => Some (PyInt z)
    | Some (mkMetadata (DB_TYPE_NUM 2) _ _ _), PyBool b =>
        Some (PyInt (if b then 1 else 0))
    | Some (mkMetadata DB_TYPE_BINARY_INTEGER _ _ _), PyInt z =>
        Some (PyInt z)
    | Some (mkMetadata DB_TYPE_BOOLEAN _ _ _), PyBool b => Some (PyBool b)
    | _, _ => None
    end
|}.

(** A string variable with room for [n] values of up to two characters. *)
Definition varchar_var (array : bool) (n : N) : BaseVarImpl := {|
  _conn_impl := conn false;
  metadata := Some (mkMetadata DB_TYPE_VARCHAR None 2 2);
  inconverter := None;
  is_array := array;
  num_elements := n;
  num_elements_in_array := 0;
  _is_value_set := false;
  _values := ∅
|}.

(** The same variable with three slots, each already holding a
    string. *)
Definition filled_var (array : bool) : BaseVarImpl :=
  with_values {[ 0 := PyStr "x"; 1 := PyStr "y"; 2 := PyStr "z" ]}
    (with_num_elements_in_array (if array then 3 else 0)
       (varchar_var array 3)).

End Sample.

(** ** Vocabulary of the properties *)

(** The fields no bind ever writes, together with the two element counts:
    what a scalar bind leaves alone. *)
Definition same_frame (s s' : BaseVarImpl) : Prop :=
  _conn_impl s' = _conn_impl s ∧ inconverter s' = inconverter s ∧
  is_array s' = is_array s ∧ num_elements s' = num_elements s ∧
  num_elements_in_array s' = num_elements_in_array s.

(** Bound metadata stays bound and its [max_size] does not go down. *)
Definition max_size_grows (s s' : BaseVarImpl) : Prop :=
  ∀ md, metadata s = Some md →
        ∃ md', metadata s' = Some md' ∧ max_size md ≤ max_size md'.

(** The array invariant of the data model. *)
Definition count_invariant (self : BaseVarImpl) : Prop :=
  num_elements_in_array self ≤ num_elements self.

(** The entry points of the class, as a caller can invoke them. *)
Inductive op : Type :=
| Op_finalize_init
| Op_on_reset_bind (num_rows : N)
| Op_set_metadata_from_type (typ : pyobj)
| Op_set_metadata_from_value (value : pyobj) (is_plsql : bool)
| Op_check_and_set_scalar_value (pos : N) (value : pyobj)
                                (was_set : was_set_ptr)
| Op_check_and_set_value (pos : N) (value : pyobj) (was_set : was_set_ptr)
| Op_set_value (pos : N) (value : pyobj)
| Op_get_value (pos : N)
| Op_get_all_values.

(** The binds and the re-inference of metadata from a value. *)
Definition is_bind_op (o : op) : bool :=
  match o with
  | Op_set_metadata_from_value _ _ | Op_check_and_set_scalar_value _ _ _
  | Op_check_and_set_value _ _ _ | Op_set_value _ _ => true
  | _ => false
  end.

Section vocabulary.
Context `{catalog : TypeCatalog}.

(** The variable after an entry point has run, whether it returned or
    raised. *)
Definition exec (o : op) (self : BaseVarImpl) : BaseVarImpl :=
  match o with
  | Op_finalize_init => (_finalize_init self).2
  | Op_on_reset_bind num_rows => (_on_reset_bind num_rows self).2
  | Op_set_metadata_from_type typ => (_set_metadata_from_type typ self).2
  | Op_set_metadata_from_value value is_plsql =>
      (_set_metadata_from_value value is_plsql self).2
  | Op_check_and_set_scalar_value pos value was_set =>
      (_check_and_set_scalar_value pos value was_set self).2
  | Op_check_and_set_value pos value was_set =>
      (_check_and_set_value pos value was_set self).2
  | Op_set_value pos value => (set_value pos value self).2
  | Op_get_value pos => (get_value pos self).2
  | Op_get_all_values => (get_all_values self).2
  end.

Definition exec_all (ops : list op) (self : BaseVarImpl) : BaseVarImpl :=
  foldl (λ s o, exec o s) self ops.

(** What the properties of [max_size] need from the absent
    [OracleMetadata._finalize_init]: it does not shrink a size that is
    already set on a sized type. *)
Definition finalize_keeps_size : Prop :=
  ∀ md, default_size (dbtype md) ≠ 0 → max_size md ≠ 0 →
        max_size md ≤ max_size (metadata_finalize_init md).


End vocabulary.

Section sizes.
Context `{catalog : TypeCatalog}.

(** A second thing the absent [OracleMetadata._finalize_init] is asked
    for where noted: it leaves the database type of the metadata as it
    is. *)
Definition finalize_keeps_dbtype : Prop :=
  ∀ md, dbtype (metadata_finalize_init md) = dbtype md.

(** The variable is of a sized type: its metadata is set and the
    [default_size] of its database type is not zero. *)
Definition sized (self : BaseVarImpl) : Prop :=
  ∃ md, metadata self = Some md ∧ default_size (dbtype md) ≠ 0.

(** A stored value needs no more room than the variable has: it is
    [None], or its length, as the [uint32_t] the resize test reads, is at
    most [max_size]. *)
Definition fits (self : BaseVarImpl) (stored : pyobj) : Prop :=
  stored = PyNone ∨
  ∃ md n, metadata self = Some md ∧ py_len stored = Some n ∧
          to_uint32 n ≤ max_size md.

End sizes.

(** [stored] is what a bind keeps for [value]: the in converter of the
    variable, if any, is applied, and the connection accepts the result
    as [stored] for some state of the metadata. *)
Definition accepted_form (self : BaseVarImpl) (value stored : pyobj) : Prop :=
  ∃ converted md,
    call_inconverter value self = (Ok converted, self) ∧
    accepts (_conn_impl self) md converted = Some stored.

(** Metadata is inferred from each of [values] in turn. *)
Definition infer_each (values : list pyobj) (is_plsql : bool) : list op :=
  (λ value, Op_set_metadata_from_value value is_plsql) <$> values.

(** * Properties *)

(** ** Unfolding the monad *)

Ltac unfold_monad :=
  unfold mbind, mret, var_bind, var_ret, bind, ret, raise, get, modify, lift
    in *.

Ltac step_all :=
  repeat (simplify_eq /=; try case_match); simplify_eq /=.

Lemma same_frame_refl s : same_frame s s.
Proof. by repeat split. Qed.

Lemma same_frame_trans s1 s2 s3 :
  same_frame s1 s2 → same_frame s2 s3 → same_frame s1 s3.
Proof.
  unfold same_frame. intros (?&?&?&?&?) (?&?&?&?&?).
  repeat split; congruence.
Qed.

Lemma to_uint32_le n : to_uint32 n ≤ n.
Proof. unfold to_uint32. apply N.Div0.mod_le. Qed.

Lemma to_uint32_small n : n < 2 ^ 32 → to_uint32 n = n.
Proof. unfold to_uint32. intros. by apply N.mod_small. Qed.

Lemma cleared_is_Some (was_set : was_set_ptr) :
  cleared was_set = true → is_Some was_set.
Proof. destruct was_set as [[]|]; naive_solver. Qed.

Section scalar.
Context `{catalog : TypeCatalog}.

Lemma resize_frame size s r s' :
  _resize size s = (r, s') →
  same_frame s s' ∧ _values s' = _values s ∧
  _is_value_set s' = _is_value_set s.
Proof.
  unfold _resize, bound_metadata. unfold_monad. unfold same_frame.
  intros; step_all; done.
Qed.

Lemma resize_if_applicable_frame value s r s' :
  resize_if_applicable value s = (r, s') →
  same_frame s s' ∧ _values s' = _values s ∧
  _is_value_set s' = _is_value_set s.
Proof.
  unfold resize_if_applicable, bound_metadata. unfold_monad.
  intros Hr.
  repeat (case_match; simplify_eq /=);
    try (split; [apply same_frame_refl|done]);
    eauto using resize_frame.
Qed.

Lemma resize_if_applicable_raise value s e s' :
  resize_if_applicable value s = (Raise e, s') → s' = s.
Proof.
  unfold resize_if_applicable, _resize, bound_metadata. unfold_monad.
  intros; step_all; done.
Qed.

(** A scalar bind that raises has not touched the variable. *)
Lemma scalar_raise_unchanged pos value was_set s e s' :
  _check_and_set_scalar_value pos value was_set s = (Raise e, s') → s' = s.
Proof.
  unfold _check_and_set_scalar_value, call_inconverter, _check_value,
    _set_scalar_value.
  unfold_monad. intros Hr.
  repeat (case_match; simplify_eq /=); eauto using resize_if_applicable_raise.
Qed.

(** A scalar bind that returns either found the flag cleared and did
    nothing, or stored a value at [pos] and nowhere else. *)
Lemma scalar_ok pos value was_set s was_set' s' :
  _check_and_set_scalar_value pos value was_set s = (Ok was_set', s') →
  same_frame s s' ∧
  ((cleared was_set' = true ∧ is_Some was_set ∧ s' = s) ∨
   (cleared was_set' = false ∧ was_set' = was_set ∧
    _is_value_set s' = true ∧
    ∃ stored, _values s' = <[pos := stored]> (_values s))).
Proof.
  unfold _check_and_set_scalar_value, call_inconverter, _check_value,
    _set_scalar_value.
  unfold_monad. intros Hr.
  repeat (case_match; simplify_eq /=);
    try (split; [apply same_frame_refl|left; by eauto using cleared_is_Some]);
    match goal with
    | H : resize_if_applicable _ _ = _ |- _ =>
        apply resize_if_applicable_frame in H as (Hf & Hv & _)
    end;
    (split; [exact Hf|right; rewrite Hv; eauto 10]).
Qed.

End scalar.

(** ** The element loop of an array bind *)

Section elements.
Context `{catalog : TypeCatalog}.

(** The loop writes no slot at or beyond the end of the list, and none
    of the fields of [same_frame]. *)
Lemma elements_frame elements : ∀ i was_set s r s',
  check_and_set_elements i elements was_set s = (r, s') →
  same_frame s s' ∧
  ∀ j, i + N.of_nat (length elements) ≤ j →
       _values s' !! j = _values s !! j.
Proof.
  induction elements as [|element rest IH]; intros i was_set s r s'; simpl.
  - unfold_monad. intros [= <- <-]. split; [apply same_frame_refl|done].
  - unfold_monad.
    destruct (_check_and_set_scalar_value (to_uint32 i) element was_set s)
      as [[was_set1|e] s1] eqn:Hscalar.
    + apply scalar_ok in Hscalar as [Hframe Hcases].
      assert (∀ j, i < j → _values s1 !! j = _values s !! j) as Hslots.
      { intros j Hj. destruct Hcases as [(_ & _ & ->)|(_ & _ & _ & stored & ->)];
          [done|].
        apply lookup_insert_ne. pose proof (to_uint32_le i). lia. }
      destruct (cleared was_set1).
      * intros [= <- <-]. split; [done|]. intros j Hj. apply Hslots. lia.
      * intros Hrest. apply IH in Hrest as [Hframe' Hslots'].
        split; [by eapply same_frame_trans|].
        intros j Hj. rewrite Hslots' by lia. apply Hslots. lia.
    + apply scalar_raise_unchanged in Hscalar as ->.
      intros [= <- <-]. split; [apply same_frame_refl|done].
Qed.

(** A slot that holds a value still holds one after the loop. *)
Lemma elements_keep_set elements : ∀ i was_set s r s' j,
  check_and_set_elements i elements was_set s = (r, s') →
  is_Some (_values s !! j) → is_Some (_values s' !! j).
Proof.
  induction elements as [|element rest IH]; intros i was_set s r s' j; simpl.
  - unfold_monad. by intros [= <- <-].
  - unfold_monad.
    destruct (_check_and_set_scalar_value (to_uint32 i) element was_set s)
      as [[was_set1|e] s1] eqn:Hscalar.
    + apply scalar_ok in Hscalar as [_ Hcases].
      intros Hrest Hset.
      assert (is_Some (_values s1 !! j)) as Hset1.
      { destruct Hcases as [(_ & _ & ->)|(_ & _ & _ & stored & ->)]; [done|].
        rewrite lookup_insert. case_decide; eauto. }
      destruct (cleared was_set1); [by simplify_eq|]. by eapply IH.
    + apply scalar_raise_unchanged in Hscalar as ->. by intros [= <- <-].
Qed.

(** A loop that runs to the end of the list has stored a value for each
    element. *)
Lemma elements_all_set elements : ∀ i was_set s was_set' s' j,
  i + N.of_nat (length elements) ≤ 2 ^ 32 →
  check_and_set_elements i elements was_set s = (Ok (false, was_set'), s') →
  i ≤ j < i + N.of_nat (length elements) →
  is_Some (_values s' !! j).
Proof.
  induction elements as [|element rest IH];
    intros i was_set s was_set' s' j Hrange;
    cbn [check_and_set_elements length].
  - lia.
  - cbn [length] in Hrange. rewrite Nat2N.inj_succ in *. unfold_monad.
    destruct (_check_and_set_scalar_value (to_uint32 i) element was_set s)
      as [[was_set1|e] s1] eqn:Hscalar; [|done].
    apply scalar_ok in Hscalar as [_ Hcases].
    destruct (cleared was_set1) eqn:Hcleared; [done|].
    destruct Hcases as [[? _]|(_ & _ & _ & stored & Hstored)]; [congruence|].
    intros Hrest Hj. destruct (decide (j = i)) as [->|Hne].
    + eapply elements_keep_set; [exact Hrest|].
      rewrite Hstored, to_uint32_small by lia.
      rewrite lookup_insert_eq. eauto.
    + eapply IH; [|exact Hrest|]; lia.
Qed.

(** Without a flag the loop never leaves through the early return. *)
Lemma elements_default_mode elements : ∀ i s returned was_set' s',
  check_and_set_elements i elements None s = (Ok (returned, was_set'), s') →
  returned = false ∧ was_set' = None.
Proof.
  induction elements as [|element rest IH]; intros i s returned was_set' s';
    simpl.
  - unfold_monad. by intros [= <- <- <-].
  - unfold_monad.
    destruct (_check_and_set_scalar_value (to_uint32 i) element None s)
      as [[was_set1|e] s1] eqn:Hscalar; [|done].
    apply scalar_ok in Hscalar as [_ Hcases].
    destruct Hcases as [(_ & [? ?] & _)|(Hcl & -> & _)]; [done|].
    rewrite Hcl. apply IH.
Qed.

(** Running the loop over a prefix that completes and then over the
    rest is running it over the whole list. *)
Lemma elements_app pre : ∀ rest i was_set s was_set1 s1,
  check_and_set_elements i pre was_set s = (Ok (false, was_set1), s1) →
  check_and_set_elements i (pre ++ rest) was_set s =
  check_and_set_elements (i + N.of_nat (length pre)) rest was_set1 s1.
Proof.
  induction pre as [|element pre IH]; intros rest i was_set s was_set1 s1;
    simpl.
  - unfold_monad. intros [= <- <-]. by rewrite N.add_0_r.
  - unfold_monad.
    destruct (_check_and_set_scalar_value (to_uint32 i) element was_set s)
      as [[was_set2|e] s2]; [|done].
    destruct (cleared was_set2); [done|].
    intros Hpre. rewrite (IH _ _ _ _ _ _ Hpre). f_equal. lia.
Qed.

(** The exceptions a scalar bind can raise. *)
Lemma scalar_raise_kind pos value was_set s e s' :
  _check_and_set_scalar_value pos value was_set s = (Raise e, s') →
  e = ArgumentTypeError ∨ e = TypeError ∨ e = AttributeError ∨
  ∃ tag, e = ConverterError tag.
Proof.
  unfold _check_and_set_scalar_value, call_inconverter, _check_value,
    _set_scalar_value, resize_if_applicable, _resize, bound_metadata.
  unfold_monad. intros Hr.
  repeat (case_match; simplify_eq /=); eauto.
Qed.


End elements.

(** ** Array binds: abort, capacity and trailing slots *)

Section array_bind.
Context `{catalog : TypeCatalog}.

(** Past the list test and the capacity test, an array bind is the
    element loop followed by the update of the element count. *)
Lemma array_bind_within_capacity self pos elements was_set :
  is_array self = true →
  to_uint32 (N.of_nat (length elements)) ≤ num_elements self →
  _check_and_set_value pos (PyList elements) was_set self =
  match check_and_set_elements 0 elements was_set self with
  | (Ok (true, was_set'), s') => (Ok was_set', s')
  | (Ok (false, was_set'), s') =>
      (Ok was_set',
       with_num_elements_in_array (to_uint32 (N.of_nat (length elements))) s')
  | (Raise e, s') => (Raise e, s')
  end.
Proof.
  intros Harray Hfits. unfold _check_and_set_value. unfold_monad.
  rewrite Harray. simpl.
  destruct (N.ltb_spec (num_elements self)
              (to_uint32 (N.of_nat (length elements)))); [lia|].
  destruct (check_and_set_elements 0 elements was_set self)
    as [[[[] ?]|?] ?]; done.
Qed.

(** C1 (as amended): in the default raising mode an array bind whose
    list fits the variable stops at the first element whose scalar bind
    raises.  That exception is the result of the bind; the elements
    after it are not looked at; [num_elements_in_array] and every slot
    at or beyond the failing position are as before the bind.  The
    elements before it stay bound: the variable is left exactly as the
    loop over that prefix left it, with a value in each of their
    slots. *)
Theorem array_bind_aborts_at_first_invalid
    self pos pre bad post s1 e s2 :
  is_array self = true →
  N.of_nat (length (pre ++ bad :: post)) ≤ num_elements self →
  num_elements self < 2 ^ 32 →
  check_and_set_elements 0 pre None self = (Ok (false, None), s1) →
  _check_and_set_scalar_value (N.of_nat (length pre)) bad None s1
    = (Raise e, s2) →
  _check_and_set_value pos (PyList (pre ++ bad :: post)) None self
    = (Raise e, s1) ∧
  s2 = s1 ∧
  num_elements_in_array s1 = num_elements_in_array self ∧
  (∀ j, N.of_nat (length pre) ≤ j → _values s1 !! j = _values self !! j) ∧
  (∀ j, j < N.of_nat (length pre) → is_Some (_values s1 !! j)).
Proof.
  intros Harray Hfits Hrange Hpre Hbad.
  rewrite length_app in Hfits. cbn [length] in Hfits.
  pose proof (scalar_raise_unchanged _ _ _ _ _ _ Hbad) as ->.
  pose proof (elements_frame _ _ _ _ _ _ Hpre) as [Hframe Hslots].
  split; [|split; [done|split; [apply Hframe|split]]].
  - rewrite array_bind_within_capacity; [|done|].
    + rewrite (elements_app _ _ _ _ _ _ _ Hpre). simpl. unfold_monad.
      rewrite N.add_0_l, to_uint32_small by lia. by rewrite Hbad.
    + rewrite length_app. cbn [length].
      pose proof (to_uint32_le (N.of_nat (length pre + S (length post)))).
      lia.
  - intros j Hj. apply Hslots. lia.
  - intros j Hj. eapply elements_all_set; [|exact Hpre|]; lia.
Qed.


(** C3: an array bind that returns has written no slot at or beyond
    the length of its list: every trailing slot keeps its prior
    content. *)
Theorem array_bind_keeps_trailing_slots
    self pos elements was_set was_set' self' :
  is_array self = true →
  N.of_nat (length elements) < num_elements self →
  _check_and_set_value pos (PyList elements) was_set self
    = (Ok was_set', self') →
  ∀ j, N.of_nat (length elements) ≤ j →
       _values self' !! j = _values self !! j.
Proof.
  intros Harray Hshort.
  rewrite array_bind_within_capacity; [|done|].
  - destruct (check_and_set_elements 0 elements was_set self)
      as [[[returned flag]|e] s1] eqn:Hloop; [|done].
    apply elements_frame in Hloop as [_ Hslots].
    destruct returned; intros [= <- <-] j Hj; apply Hslots; lia.
  - pose proof (to_uint32_le (N.of_nat (length elements))). lia.
Qed.

End array_bind.

(** ** [max_size] only grows *)

Lemma max_size_grows_refl s : max_size_grows s s.
Proof. intros md ?. exists md. split; [done|lia]. Qed.

Lemma max_size_grows_trans s1 s2 s3 :
  max_size_grows s1 s2 → max_size_grows s2 s3 → max_size_grows s1 s3.
Proof.
  intros H12 H23 md Hmd.
  destruct (H12 md Hmd) as (md2 & Hmd2 & ?).
  destruct (H23 md2 Hmd2) as (md3 & Hmd3 & ?).
  exists md3. split; [done|lia].
Qed.

Section max_size.
Context `{catalog : TypeCatalog}.
Hypothesis finalize_ok : finalize_keeps_size.

(** The resize block either leaves the variable alone or is a call of
    [_resize] with a size above the current [max_size]. *)
Lemma resize_only_upwards value s r s' :
  resize_if_applicable value s = (r, s') →
  s' = s ∨
  ∃ md size, metadata s = Some md ∧ default_size (dbtype md) ≠ 0 ∧
             max_size md < size ∧ _resize size s = (r, s').
Proof.
  unfold resize_if_applicable, bound_metadata. unfold_monad.
  intros Hr. repeat (case_match; simplify_eq /=); eauto.
  right. eexists _, _. split; [done|]. split; [|split; [|done]].
  - intros Hzero. by rewrite Hzero in *.
  - by apply N.ltb_lt.
Qed.

Lemma resize_grows size s r s' md :
  metadata s = Some md → default_size (dbtype md) ≠ 0 →
  max_size md < size →
  _resize size s = (r, s') →
  ∃ md', metadata s' = Some md' ∧ size ≤ max_size md'.
Proof.
  unfold _resize, bound_metadata. unfold_monad.
  intros Hmd Hsized Hlt. rewrite Hmd. intros [= <- <-]. simpl.
  eexists. split; [done|].
  apply (finalize_ok (with_buffer_size 0 (with_max_size size md)));
    simpl; [done|lia].
Qed.

Lemma resize_if_applicable_grows value s r s' :
  resize_if_applicable value s = (r, s') → max_size_grows s s'.
Proof.
  intros Hr. apply resize_only_upwards in Hr
    as [->|(md & size & Hmd & Hsized & Hlt & Hresize)].
  - apply max_size_grows_refl.
  - intros md0 Hmd0. assert (md0 = md) as -> by congruence.
    destruct (resize_grows _ _ _ _ _ Hmd Hsized Hlt Hresize)
      as (md' & Hmd' & Hle).
    exists md'. split; [done|lia].
Qed.

Lemma scalar_grows pos value was_set s r s' :
  _check_and_set_scalar_value pos value was_set s = (r, s') →
  max_size_grows s s'.
Proof.
  unfold _check_and_set_scalar_value, call_inconverter, _check_value,
    _set_scalar_value.
  unfold_monad. intros Hr.
  repeat (case_match; simplify_eq /=);
    try apply max_size_grows_refl;
    match goal with
    | H : resize_if_applicable _ _ = _ |- _ =>
        apply resize_if_applicable_grows in H
    end; done.
Qed.

Lemma elements_grow elements : ∀ i was_set s r s',
  check_and_set_elements i elements was_set s = (r, s') →
  max_size_grows s s'.
Proof.
  induction elements as [|element rest IH]; intros i was_set s r s'; simpl.
  - unfold_monad. intros [= <- <-]. apply max_size_grows_refl.
  - unfold_monad.
    destruct (_check_and_set_scalar_value (to_uint32 i) element was_set s)
      as [[was_set1|e] s1] eqn:Hscalar;
      apply scalar_grows in Hscalar.
    + destruct (cleared was_set1); [by intros [= <- <-]|].
      intros Hrest. apply IH in Hrest. by eapply max_size_grows_trans.
    + by intros [= <- <-].
Qed.

Lemma check_and_set_value_grows pos value was_set s r s' :
  _check_and_set_value pos value was_set s = (r, s') →
  max_size_grows s s'.
Proof.
  unfold _check_and_set_value, _set_num_elements_in_array. unfold_monad.
  destruct (is_array s); simpl; [|apply scalar_grows].
  destruct value as [| | | | |elements];
    try (destruct was_set; intros [= <- <-]; apply max_size_grows_refl).
  case_match; [destruct was_set; intros [= <- <-];
               apply max_size_grows_refl|].
  destruct (check_and_set_elements 0 elements was_set s)
    as [[[returned flag]|e] s1] eqn:Hloop; apply elements_grow in Hloop.
  - by destruct returned; intros [= <- <-].
  - by intros [= <- <-].
Qed.

Lemma set_value_grows pos value s r s' :
  set_value pos value s = (r, s') → max_size_grows s s'.
Proof.
  unfold set_value. unfold_monad.
  destruct (if is_array s then _ else _) as [[[]|e] s0] eqn:Hguard.
  - assert (s0 = s) as -> by (repeat (case_match; simplify_eq /=); done).
    destruct (_check_and_set_value pos value None s) as [[?|?] ?] eqn:Hset;
      apply check_and_set_value_grows in Hset; by intros [= <- <-].
  - assert (s0 = s) as -> by (repeat (case_match; simplify_eq /=); done).
    intros [= <- <-]. apply max_size_grows_refl.
Qed.

Lemma set_metadata_from_value_grows value is_plsql s r s' :
  _set_metadata_from_value value is_plsql s = (r, s') →
  max_size_grows s s'.
Proof.
  unfold _set_metadata_from_value. unfold_monad. intros Hr md Hmd.
  rewrite Hmd in Hr.
  repeat (case_match; simplify_eq /=); eauto using N.le_refl.
  eexists. split; [done|]. simpl.
  match goal with H : (_ <? _) = true |- _ => apply N.ltb_lt in H end. lia.
Qed.

(** C4: given that the absent [OracleMetadata._finalize_init] does not
    shrink a size set on a sized type, every bind (scalar, array,
    [set_value]) and every inference of metadata from a further value
    leaves bound metadata bound with a [max_size] at least as large as
    before, whether it returns or raises; and the resize block of a
    scalar bind changes the variable only by calling [_resize] with a
    size strictly above the current [max_size], after which [max_size]
    is at least that size. *)
Theorem max_size_never_shrinks o self md :
  is_bind_op o = true →
  metadata self = Some md →
  (∃ md', metadata (exec o self) = Some md' ∧
          max_size md ≤ max_size md') ∧
  (∀ value r s',
     resize_if_applicable value self = (r, s') →
     s' = self ∨
     ∃ size md', max_size md < size ∧ _resize size self = (r, s') ∧
                 metadata s' = Some md' ∧ size ≤ max_size md').
Proof.
  intros Hop Hmd. split.
  - destruct o; try done; simpl;
      match goal with
      | |- context [(?call).2] => destruct call as [r s'] eqn:Hcall
      end; simpl.
    + by eapply set_metadata_from_value_grows.
    + by eapply scalar_grows.
    + by eapply check_and_set_value_grows.
    + by eapply set_value_grows.
  - intros value r s' Hr.
    apply resize_only_upwards in Hr
      as [->|(md0 & size & Hmd0 & Hsized & Hlt & Hresize)]; [by left|].
    right. assert (md0 = md) as -> by congruence.
    destruct (resize_grows _ _ _ _ _ Hmd0 Hsized Hlt Hresize)
      as (md' & Hmd' & Hle).
    by exists size, md'.
Qed.

End max_size.

(** ** The element counts *)

Section counts.
Context `{catalog : TypeCatalog}.

Lemma finalize_init_counts s r s' :
  _finalize_init s = (r, s') →
  num_elements_in_array s' = num_elements_in_array s ∧
  num_elements s' = (if r is Ok _ then
                       if num_elements s =? 0 then 1 else num_elements s
                     else num_elements s).
Proof.
  unfold _finalize_init, bound_metadata. unfold_monad.
  intros Hr. repeat (case_match; simplify_eq /=); done.
Qed.

Lemma on_reset_bind_counts num_rows s r s' :
  _on_reset_bind num_rows s = (r, s') →
  num_elements_in_array s' = num_elements_in_array s ∧
  num_elements s' =
    (if num_elements s <? num_rows then num_rows else num_elements s).
Proof.
  unfold _on_reset_bind. unfold_monad.
  destruct (N.ltb_spec (num_elements s) num_rows) as [Hlt|Hge].
  - intros Hr. apply finalize_init_counts in Hr as [-> ->]. simpl.
    split; [done|]. destruct r; [|done].
    destruct (N.eqb_spec num_rows 0); [lia|done].
  - by intros [= <- <-].
Qed.

Lemma check_and_set_value_counts pos value was_set s r s' :
  _check_and_set_value pos value was_set s = (r, s') →
  num_elements s' = num_elements s ∧
  (num_elements_in_array s' = num_elements_in_array s ∨
   num_elements_in_array s' ≤ num_elements s).
Proof.
  unfold _check_and_set_value, _set_num_elements_in_array. unfold_monad.
  destruct (is_array s); simpl.
  - destruct value as [| | | | |elements];
      try (destruct was_set; intros [= <- <-]; by auto).
    destruct (N.ltb_spec (num_elements s)
                (to_uint32 (N.of_nat (length elements)))) as [Hlt|Hge];
      [destruct was_set; intros [= <- <-]; by auto|].
    destruct (check_and_set_elements 0 elements was_set s)
      as [[[returned flag]|e] s1] eqn:Hloop;
      apply elements_frame in Hloop as [(_ & _ & _ & Hn & Hk) _].
    + destruct returned; intros [= <- <-]; simpl; auto.
    + intros [= <- <-]. auto.
  - destruct r as [flag|e]; intros Hscalar.
    + apply scalar_ok in Hscalar as [(_ & _ & _ & Hn & Hk) _]. auto.
    + apply scalar_raise_unchanged in Hscalar as ->. auto.
Qed.

(** One entry point: [num_elements] does not go down, and
    [num_elements_in_array] is either untouched or at most the
    [num_elements] the entry point started from. *)
Lemma exec_counts o s :
  num_elements s ≤ num_elements (exec o s) ∧
  (num_elements_in_array (exec o s) = num_elements_in_array s ∨
   num_elements_in_array (exec o s) ≤ num_elements s).
Proof.
  destruct o; simpl.
  - destruct (_finalize_init s) as [r s'] eqn:Hcall. simpl.
    apply finalize_init_counts in Hcall as [-> ->].
    split; [|by left]. destruct r; [|done].
    destruct (N.eqb_spec (num_elements s) 0); lia.
  - destruct (_on_reset_bind num_rows s) as [r s'] eqn:Hcall. simpl.
    apply on_reset_bind_counts in Hcall as [-> ->].
    split; [|by left].
    destruct (N.ltb_spec (num_elements s) num_rows); lia.
  - unfold _set_metadata_from_type. unfold_monad.
    destruct (from_type typ); simpl; auto.
  - unfold _set_metadata_from_value. unfold_monad.
    repeat (case_match; simplify_eq /=); auto.
  - destruct (_check_and_set_scalar_value pos value was_set s)
      as [[flag|e] s'] eqn:Hcall; simpl.
    + apply scalar_ok in Hcall as [(_ & _ & _ & -> & ->) _]. auto.
    + apply scalar_raise_unchanged in Hcall as ->. auto.
  - destruct (_check_and_set_value pos value was_set s) as [r s'] eqn:Hcall.
    simpl. apply check_and_set_value_counts in Hcall as [-> Hk]. auto.
  - unfold set_value. unfold_monad.
    destruct (if is_array s then _ else _) as [[[]|e] s0] eqn:Hguard;
      (assert (s0 = s) as ->
         by (repeat (case_match; simplify_eq /=); done)); [|by auto].
    destruct (_check_and_set_value pos value None s) as [r s'] eqn:Hcall.
    apply check_and_set_value_counts in Hcall as [Hn Hk].
    destruct r; simpl; rewrite Hn; auto.
  - unfold get_value, _get_array_value, _get_scalar_value. unfold_monad.
    repeat (case_match; simplify_eq /=); auto.
  - unfold get_all_values, _get_array_value. unfold_monad.
    repeat (case_match; simplify_eq /=); auto.
Qed.

(** C5: [num_elements_in_array ≤ num_elements] is kept by every entry
    point of the class, however it ends, hence by every sequence of
    them; the only assignment of [num_elements_in_array] stores the
    [uint32_t] length that has just passed the capacity test. *)
Theorem count_invariant_preserved ops self :
  count_invariant self → count_invariant (exec_all ops self).
Proof.
  unfold exec_all, count_invariant. revert self.
  induction ops as [|o ops IH]; intros self Hinv; simpl; [done|].
  apply IH. destruct (exec_counts o self) as [Hn [Hk|Hk]]; lia.
Qed.

(** C10: a [_finalize_init] that returns leaves [num_elements ≥ 1],
    having turned a zero into one and kept any other value, and it
    returns whenever the metadata is set; no entry point lowers
    [num_elements]; and [_on_reset_bind] changes it only when
    [num_rows] is larger, to [num_rows]. *)
Theorem num_elements_floor_and_growth self :
  (∀ self', _finalize_init self = (Ok tt, self') →
            1 ≤ num_elements self' ∧
            num_elements self' =
              (if num_elements self =? 0 then 1 else num_elements self)) ∧
  (is_Some (metadata self) → ∃ self', _finalize_init self = (Ok tt, self')) ∧
  (∀ o, num_elements self ≤ num_elements (exec o self)) ∧
  (∀ num_rows,
     num_elements (exec (Op_on_reset_bind num_rows) self) =
     (if num_elements self <? num_rows then num_rows
      else num_elements self)).
Proof.
  split; [|split; [|split]].
  - intros self' Hcall. apply finalize_init_counts in Hcall as [_ ->].
    split; [|done]. destruct (N.eqb_spec (num_elements self) 0); lia.
  - intros [md Hmd]. unfold _finalize_init, bound_metadata. unfold_monad.
    rewrite Hmd. simpl. case_match; eauto.
  - intros o. apply exec_counts.
  - intros num_rows. simpl.
    destruct (_on_reset_bind num_rows self) as [r s'] eqn:Hcall. simpl.
    by apply on_reset_bind_counts in Hcall as [_ ->].
Qed.

End counts.

(** ** Inference of metadata from a value *)

Lemma with_max_size_same md : with_max_size (max_size md) md = md.
Proof. by destruct md. Qed.

Lemma with_metadata_same self md :
  metadata self = Some md → with_metadata (Some md) self = self.
Proof. destruct self. simpl. by intros ->. Qed.

Section inference.
Context `{catalog : TypeCatalog}.

(** C6: on a variable that already has metadata, inferring from a
    further value raises ERR_MIXED_ELEMENT_TYPES exactly when the
    inferred database type or object type is not the stored one; when
    both agree nothing is raised and the stored [max_size] becomes the
    larger of the two sizes, nothing else changing. *)
Theorem metadata_conflict_or_widen self own value is_plsql :
  metadata self = Some own →
  ((∃ element s', _set_metadata_from_value value is_plsql self
                    = (Raise (ERR_MIXED_ELEMENT_TYPES element), s')) ↔
   (∃ md, inferred_metadata (_conn_impl self) value is_plsql = Some md ∧
          (dbtype md ≠ dbtype own ∨ objtype md ≠ objtype own))) ∧
  (∀ md, inferred_metadata (_conn_impl self) value is_plsql = Some md →
         dbtype md = dbtype own → objtype md = objtype own →
         _set_metadata_from_value value is_plsql self =
         (Ok tt,
          with_metadata
            (Some (with_max_size (N.max (max_size own) (max_size md)) own))
            self)).
Proof.
  intros Hown. unfold _set_metadata_from_value. unfold_monad.
  rewrite Hown.
  destruct (inferred_metadata (_conn_impl self) value is_plsql) as [md|].
  - destruct (decide (dbtype md = dbtype own)) as [Hdb|Hdb];
      destruct (decide (objtype md = objtype own)) as [Hobj|Hobj];
      rewrite ?(bool_decide_eq_true_2 _ Hdb), ?(bool_decide_eq_false_2 _ Hdb),
        ?(bool_decide_eq_true_2 _ Hobj), ?(bool_decide_eq_false_2 _ Hobj);
      simpl.
    + split.
      * split.
        -- intros (element & s' & Hr). by case_match.
        -- intros (md' & [= <-] & [?|?]); done.
      * intros md' [= <-] _ _.
        destruct (N.ltb_spec (max_size own) (max_size md)).
        -- by rewrite N.max_r by lia.
        -- rewrite N.max_l by lia.
           by rewrite with_max_size_same, with_metadata_same.
    + split; [|intros md' [= <-]; done]. split; eauto 10.
    + split; [|intros md' [= <-]; done]. split; eauto 10.
    + split; [|intros md' [= <-]; done]. split; eauto 10.
  - split; [|done]. split.
    + by intros (element & s' & Hr).
    + by intros (md & ? & _).
Qed.

(** C7: for a value whose catalog entry is BOOLEAN, the inferred
    database type is DB_TYPE_BINARY_INTEGER when the connection lacks
    native booleans and the context is not PL/SQL, and stays
    DB_TYPE_BOOLEAN when the connection has them or the context is
    PL/SQL; nothing else of the entry changes, and an unset variable
    takes the inferred metadata as its own. *)
Theorem boolean_fallback conn value is_plsql entry :
  from_value value = Some entry →
  dbtype entry = DB_TYPE_BOOLEAN →
  ∃ md,
    inferred_metadata conn value is_plsql = Some md ∧
    dbtype md = (if negb (supports_bool conn) && negb is_plsql
                 then DB_TYPE_BINARY_INTEGER else DB_TYPE_BOOLEAN) ∧
    objtype md = objtype entry ∧ max_size md = max_size entry ∧
    buffer_size md = buffer_size entry ∧
    ∀ self, _conn_impl self = conn → metadata self = None →
            _set_metadata_from_value value is_plsql self =
            (Ok tt, with_metadata (Some md) self).
Proof.
  intros Hentry Hbool. unfold _set_metadata_from_value, inferred_metadata.
  unfold_monad. rewrite Hentry. simpl.
  rewrite (bool_decide_eq_true_2 _ Hbool). simpl.
  eexists. split; [done|].
  destruct (supports_bool conn) eqn:Hnative, is_plsql; simpl;
    (repeat split; [done..|]);
    intros self <- Hunset; by rewrite Hunset, Hnative.
Qed.

End inference.

(** ** Soft validation and position checks *)

Section validation.
Context `{catalog : TypeCatalog}.

(** A scalar bind of a value the connection does not accept: with a flag
    it clears the flag and returns, without one it raises; the variable
    is untouched either way. *)
Lemma unacceptable_scalar_soft_or_raise self pos value value' :
  call_inconverter value self = (Ok value', self) →
  accepts (_conn_impl self) (metadata self) value' = None →
  (∀ flag, _check_and_set_scalar_value pos value (Some flag) self
             = (Ok (Some false), self)) ∧
  _check_and_set_scalar_value pos value None self
    = (Raise ArgumentTypeError, self).
Proof.
  intros Hconv Hrej.
  unfold _check_and_set_scalar_value, _check_value. unfold_monad.
  by rewrite Hconv, Hrej.
Qed.


(** C9: on a variable that is not an array, [get_value] and
    [set_value] raise IndexError when [pos ≥ num_elements], leaving the
    variable alone, and only then: for [pos < num_elements] the first is
    the read of the slot and the second the scalar bind at [pos] without
    a flag, neither of which raises IndexError. *)
Theorem scalar_position_check self pos value :
  is_array self = false →
  (num_elements self ≤ pos →
     get_value pos self
       = (Raise (IndexError "position out of range"), self) ∧
     set_value pos value self
       = (Raise (IndexError "position out of range"), self)) ∧
  (pos < num_elements self →
     get_value pos self = _get_scalar_value pos self ∧
     set_value pos value self =
       (match _check_and_set_scalar_value pos value None self with
        | (Ok _, s') => (Ok tt, s')
        | (Raise e, s') => (Raise e, s')
        end) ∧
     ∀ msg s', get_value pos self ≠ (Raise (IndexError msg), s') ∧
               set_value pos value self ≠ (Raise (IndexError msg), s')).
Proof.
  intros Hscalar. unfold get_value, set_value, _check_and_set_value.
  unfold_monad. rewrite Hscalar. simpl. split; intros Hpos.
  - destruct (N.leb_spec (num_elements self) pos); [done|lia].
  - destruct (N.leb_spec (num_elements self) pos); [lia|].
    simpl. rewrite Hscalar. simpl.
    split; [done|]. split; [done|]. intros msg s'. split; [done|].
    destruct (_check_and_set_scalar_value pos value None self)
      as [[flag|e] s1] eqn:Hbind; [done|].
    intros [= -> <-].
    apply scalar_raise_kind in Hbind as [?|[?|[?|[? ?]]]]; done.
Qed.

End validation.

(** * Worked examples *)

(** The sample catalog meets the assumption made on
    [OracleMetadata._finalize_init]. *)
Lemma sample_finalize_keeps_size : @finalize_keeps_size Sample.catalog.
Proof.
  intros [[| |[|[p|p|]]] obj size buffer]; simpl; try done.
  intros _ Hset. destruct (N.eqb_spec size 0); [done|]. simpl. lia.
Qed.

(** A string array of two empty slots is given a string and then an
    integer: the bind raises on the integer, and slot 0, empty before,
    holds the string afterwards. *)
Lemma array_bind_commits_prefix :
  (_check_and_set_value 0 (PyList [PyStr "a"; PyInt 5]) None
     (Sample.varchar_var true 2)).1 = Raise ArgumentTypeError ∧
  _values (Sample.varchar_var true 2) !! 0 = None ∧
  _values (_check_and_set_value 0 (PyList [PyStr "a"; PyInt 5]) None
             (Sample.varchar_var true 2)).2 !! 0 = Some (PyStr "a") ∧
  _is_value_set (Sample.varchar_var true 2) = false ∧
  _is_value_set (_check_and_set_value 0 (PyList [PyStr "a"; PyInt 5]) None
                   (Sample.varchar_var true 2)).2 = true.
Proof. vm_compute. repeat split. Qed.

Lemma array_bind_aborts_at_first_invalid_witness :
  _check_and_set_value 0 (PyList ([PyStr "a"] ++ PyInt 5 :: [PyStr "b"])) None
    (Sample.filled_var true)
  = (Raise ArgumentTypeError,
     (check_and_set_elements 0 [PyStr "a"] None (Sample.filled_var true)).2) ∧
  num_elements_in_array
    (check_and_set_elements 0 [PyStr "a"] None (Sample.filled_var true)).2
  = num_elements_in_array (Sample.filled_var true) ∧
  _values (check_and_set_elements 0 [PyStr "a"] None
             (Sample.filled_var true)).2 !! 1
  = _values (Sample.filled_var true) !! 1 ∧
  is_Some (_values (check_and_set_elements 0 [PyStr "a"] None
                      (Sample.filled_var true)).2 !! 0).
Proof.
  destruct (array_bind_aborts_at_first_invalid
              (Sample.filled_var true) 0 [PyStr "a"] (PyInt 5) [PyStr "b"]
              (check_and_set_elements 0 [PyStr "a"] None
                 (Sample.filled_var true)).2
              ArgumentTypeError
              (check_and_set_elements 0 [PyStr "a"] None
                 (Sample.filled_var true)).2)
    as (Hraise & _ & Hcount & Hrest & Hset);
    [reflexivity|by vm_compute|reflexivity|reflexivity|reflexivity|].
  split; [exact Hraise|]. split; [exact Hcount|].
  split; [apply Hrest; by vm_compute|apply Hset; reflexivity].
Defined.



Lemma array_bind_keeps_trailing_slots_witness :
  _values (_check_and_set_value 0 (PyList [PyStr "a"; PyStr "b"]) None
             (Sample.filled_var true)).2 !! 2
  = _values (Sample.filled_var true) !! 2.
Proof.
  apply (array_bind_keeps_trailing_slots (Sample.filled_var true) 0
           [PyStr "a"; PyStr "b"] None None);
    [reflexivity|reflexivity|reflexivity|by vm_compute].
Defined.

Lemma max_size_never_shrinks_witness :
  (∃ md', metadata (exec (Op_set_value 1 (PyStr "abc"))
                      (Sample.filled_var false)) = Some md' ∧
          2 ≤ max_size md') ∧
  max_size <$> metadata (exec (Op_set_value 1 (PyStr "abc"))
                           (Sample.filled_var false)) = Some 3.
Proof.
  split; [|reflexivity].
  apply (max_size_never_shrinks sample_finalize_keeps_size
           (Op_set_value 1 (PyStr "abc")) (Sample.filled_var false)
           (mkMetadata Sample.DB_TYPE_VARCHAR None 2 2));
    reflexivity.
Defined.

Lemma count_invariant_preserved_witness :
  count_invariant
    (exec_all [Op_on_reset_bind 5;
               Op_set_value 0 (PyList [PyStr "a"; PyStr "b"; PyStr "c";
                                       PyStr "d"]);
               Op_set_value 0 (PyList [PyStr "a"; PyInt 5])]
       (Sample.filled_var true)).
Proof.
  apply count_invariant_preserved. by vm_compute.
Defined.

Lemma metadata_conflict_or_widen_witness :
  _set_metadata_from_value (PyStr "abcd") false (Sample.filled_var false)
  = (Ok tt,
     with_metadata (Some (mkMetadata Sample.DB_TYPE_VARCHAR None 4 2))
       (Sample.filled_var false)) ∧
  ∃ element s',
    _set_metadata_from_value (PyInt 7) false (Sample.filled_var false)
    = (Raise (ERR_MIXED_ELEMENT_TYPES element), s').
Proof.
  destruct (metadata_conflict_or_widen (Sample.filled_var false)
              (mkMetadata Sample.DB_TYPE_VARCHAR None 2 2) (PyStr "abcd")
              false eq_refl) as [_ Hwiden].
  destruct (metadata_conflict_or_widen (Sample.filled_var false)
              (mkMetadata Sample.DB_TYPE_VARCHAR None 2 2) (PyInt 7)
              false eq_refl) as [[_ Hconflict] _].
  split.
  - apply (Hwiden (mkMetadata Sample.DB_TYPE_VARCHAR None 4 0));
      reflexivity.
  - apply Hconflict.
    exists (mkMetadata Sample.DB_TYPE_NUMBER None 0 0).
    split; [reflexivity|]. left. discriminate.
Defined.

Lemma boolean_fallback_witness :
  (dbtype <$> inferred_metadata (Sample.conn false) (PyBool true) false)
    = Some DB_TYPE_BINARY_INTEGER ∧
  (dbtype <$> inferred_metadata (Sample.conn false) (PyBool true) true)
    = Some DB_TYPE_BOOLEAN ∧
  (dbtype <$> inferred_metadata (Sample.conn true) (PyBool true) false)
    = Some DB_TYPE_BOOLEAN.
Proof.
  destruct (@boolean_fallback Sample.catalog (Sample.conn false) (PyBool true)
              false (mkMetadata DB_TYPE_BOOLEAN None 0 0) eq_refl eq_refl)
    as (md1 & Hmd1 & Htype1 & _).
  destruct (@boolean_fallback Sample.catalog (Sample.conn false) (PyBool true)
              true (mkMetadata DB_TYPE_BOOLEAN None 0 0) eq_refl eq_refl)
    as (md2 & Hmd2 & Htype2 & _).
  destruct (@boolean_fallback Sample.catalog (Sample.conn true) (PyBool true)
              false (mkMetadata DB_TYPE_BOOLEAN None 0 0) eq_refl eq_refl)
    as (md3 & Hmd3 & Htype3 & _).
  rewrite Hmd1, Hmd2, Hmd3. simpl. rewrite Htype1, Htype2, Htype3.
  repeat split.
Defined.


Lemma scalar_position_check_witness :
  get_value 3 (Sample.filled_var false)
  = (Raise (IndexError "position out of range"), Sample.filled_var false) ∧
  set_value 3 (PyStr "a") (Sample.filled_var false)
  = (Raise (IndexError "position out of range"), Sample.filled_var false) ∧
  get_value 2 (Sample.filled_var false)
  = (Ok (PyStr "z"), Sample.filled_var false).
Proof.
  destruct (scalar_position_check (Sample.filled_var false) 3 (PyStr "a")
              eq_refl) as [Hout _].
  destruct (scalar_position_check (Sample.filled_var false) 2 (PyStr "a")
              eq_refl) as [_ Hin].
  destruct Hout as [Hget Hset]; [by vm_compute|].
  destruct Hin as (Hread & _); [reflexivity|].
  split; [exact Hget|]. split; [exact Hset|].
  rewrite Hread. reflexivity.
Defined.

Lemma num_elements_floor_and_growth_witness :
  num_elements (_finalize_init (Sample.varchar_var false 0)).2 = 1 ∧
  num_elements (exec (Op_on_reset_bind 7) (Sample.filled_var true)) = 7 ∧
  num_elements (exec (Op_on_reset_bind 2) (Sample.filled_var true)) = 3.
Proof.
  destruct (num_elements_floor_and_growth (Sample.varchar_var false 0))
    as (Hfloor & _).
  destruct (num_elements_floor_and_growth (Sample.filled_var true))
    as (_ & _ & _ & Hreset).
  split; [|split; [apply (Hreset 7)|apply (Hreset 2)]].
  apply (Hfloor (_finalize_init (Sample.varchar_var false 0)).2).
  reflexivity.
Defined.

(** * Further properties of the class *)

(** ** Errors of [set_value] *)

Section set_value_errors.
Context `{catalog : TypeCatalog}.

(** X1: on an array variable [set_value] tests in this order: the
    position (anything but 0 is ERR_ARRAYS_OF_ARRAYS, whatever the
    value), that the value is a list (ERR_EXPECTING_LIST_FOR_ARRAY_VAR),
    and the capacity (ERR_INCORRECT_VAR_ARRAYSIZE, whatever the elements
    are, for a length that is a [uint32_t] value).  Each of the three
    leaves the variable as it was. *)
Theorem set_value_array_checks self pos value :
  is_array self = true →
  (0 < pos →
     set_value pos value self = (Raise ERR_ARRAYS_OF_ARRAYS, self)) ∧
  ((∀ elements, value ≠ PyList elements) →
     set_value 0 value self
       = (Raise ERR_EXPECTING_LIST_FOR_ARRAY_VAR, self)) ∧
  (∀ elements,
     value = PyList elements →
     N.of_nat (length elements) < 2 ^ 32 →
     num_elements self < N.of_nat (length elements) →
     set_value 0 value self
       = (Raise (ERR_INCORRECT_VAR_ARRAYSIZE (num_elements self)
                   (N.of_nat (length elements))), self)).
Proof.
  intros Harray. unfold set_value, _check_and_set_value. unfold_monad.
  rewrite Harray. split; [|split].
  - intros Hpos. by destruct (N.ltb_spec 0 pos); [|lia].
  - intros Hnolist. simpl. rewrite Harray. simpl.
    destruct value as [| | | | |elements]; try done.
    by destruct (Hnolist elements).
  - intros elements -> Hrange Hlong. simpl. rewrite Harray. simpl.
    rewrite to_uint32_small by done.
    by destruct (N.ltb_spec (num_elements self) (N.of_nat (length elements)));
      [|lia].
Qed.

(** X2: on a variable that is not an array a [set_value] that raises
    has changed nothing, and neither has a bind that returns with its
    flag cleared: the converter, the check and [len] all come before the
    resize and the store, and nothing after them fails. *)
Theorem scalar_bind_failure_is_clean self pos value :
  is_array self = false →
  (∀ e s', set_value pos value self = (Raise e, s') → s' = self) ∧
  (∀ flag s', _check_and_set_value pos value (Some flag) self
                = (Ok (Some false), s') → s' = self).
Proof.
  intros Hscalar. split.
  - intros e s'. unfold set_value, _check_and_set_value. unfold_monad.
    rewrite Hscalar.
    destruct (N.leb_spec (num_elements self) pos); [by intros [= <- <-]|].
    simpl. rewrite Hscalar. simpl.
    destruct (_check_and_set_scalar_value pos value None self)
      as [[flag|e1] s1] eqn:Hbind; [done|].
    intros [= <- <-]. by eapply scalar_raise_unchanged.
  - intros flag s'. unfold _check_and_set_value. unfold_monad.
    rewrite Hscalar. simpl. intros Hbind.
    apply scalar_ok in Hbind as [_ [(_ & _ & ->)|(Hcl & _)]]; done.
Qed.

End set_value_errors.

Lemma set_value_array_checks_witness :
  set_value 1 (PyList [PyStr "a"]) (Sample.filled_var true)
    = (Raise ERR_ARRAYS_OF_ARRAYS, Sample.filled_var true) ∧
  set_value 0 (PyStr "a") (Sample.filled_var true)
    = (Raise ERR_EXPECTING_LIST_FOR_ARRAY_VAR, Sample.filled_var true) ∧
  set_value 0 (PyList [PyInt 1; PyInt 2; PyInt 3; PyInt 4])
    (Sample.filled_var true)
    = (Raise (ERR_INCORRECT_VAR_ARRAYSIZE 3 4), Sample.filled_var true).
Proof.
  destruct (set_value_array_checks (Sample.filled_var true) 1
              (PyList [PyStr "a"]) eq_refl) as (Hposition & _ & _).
  destruct (set_value_array_checks (Sample.filled_var true) 0 (PyStr "a")
              eq_refl) as (_ & Hlist & _).
  destruct (set_value_array_checks (Sample.filled_var true) 0
              (PyList [PyInt 1; PyInt 2; PyInt 3; PyInt 4]) eq_refl)
    as (_ & _ & Hcapacity).
  split; [|split].
  - exact (Hposition eq_refl).
  - apply Hlist. discriminate.
  - exact (Hcapacity _ eq_refl eq_refl eq_refl).
Defined.

Lemma scalar_bind_failure_is_clean_witness :
  (set_value 1 (PyInt 5) (Sample.filled_var false)).2
  = Sample.filled_var false.
Proof.
  destruct (scalar_bind_failure_is_clean (Sample.filled_var false) 1
              (PyInt 5) eq_refl) as [Hraise _].
  apply (Hraise ArgumentTypeError). reflexivity.
Defined.

(** ** Reading the slots back *)

Lemma slots_from_length vs : ∀ count start,
  length (slots_from vs start count) = count.
Proof. induction count as [|count IH]; intros start; simpl; by rewrite ?IH. Qed.

Lemma slots_from_lookup vs : ∀ count start (k : nat),
  (k < count)%nat →
  slots_from vs start count !! k
  = Some (default PyNone (vs !! (start + N.of_nat k))).
Proof.
  induction count as [|count IH]; intros start k Hk; [lia|].
  destruct k as [|k]; simpl.
  - by rewrite N.add_0_r.
  - rewrite IH by lia. do 3 f_equal. lia.
Qed.

Section reading.
Context `{catalog : TypeCatalog}.

(** X3: binding the empty list to an array variable returns, whatever
    the position, the flag, the capacity or the metadata (no element is
    looked at): it sets [num_elements_in_array] to 0 and touches nothing
    else, so that the array then reads back as the empty list. *)
Theorem empty_array_bind self pos was_set :
  is_array self = true →
  _check_and_set_value pos (PyList []) was_set self
    = (Ok was_set, with_num_elements_in_array 0 self) ∧
  get_value pos (with_num_elements_in_array 0 self)
    = (Ok (PyList []), with_num_elements_in_array 0 self).
Proof.
  intros Harray. split.
  - assert (to_uint32 (N.of_nat (length (@nil pyobj))) = 0) as Hzero
      by reflexivity.
    rewrite array_bind_within_capacity; [by rewrite Hzero|done|].
    rewrite Hzero. lia.
  - unfold get_value, _get_array_value. unfold_monad. simpl.
    by rewrite Harray.
Qed.

(** X4: a scalar bind whose checked value is [None] stores [None] at the
    position, marks the variable as set and does nothing else: the
    metadata is neither read nor resized, so the bind returns even on a
    variable without metadata. *)
Theorem scalar_bind_of_none self pos value converted was_set :
  call_inconverter value self = (Ok converted, self) →
  accepts (_conn_impl self) (metadata self) converted = Some PyNone →
  cleared was_set = false →
  _check_and_set_scalar_value pos value was_set self
  = (Ok was_set,
     with_is_value_set true
       (with_values (<[pos := PyNone]> (_values self)) self)).
Proof.
  intros Hconv Haccept Hflag.
  unfold _check_and_set_scalar_value, _check_value, _set_scalar_value,
    resize_if_applicable.
  unfold_monad. by rewrite Hconv, Haccept, Hflag.
Qed.

(** What a scalar bind that stores has stored: the accepted form of the
    converted value, at [pos]. *)
Lemma scalar_stores_accepted pos value was_set s was_set' s' :
  _check_and_set_scalar_value pos value was_set s = (Ok was_set', s') →
  cleared was_set' = false →
  ∃ converted stored,
    call_inconverter value s = (Ok converted, s) ∧
    accepts (_conn_impl s) (metadata s) converted = Some stored ∧
    _values s' = <[pos := stored]> (_values s) ∧
    ∃ s1, resize_if_applicable stored s = (Ok tt, s1) ∧
          metadata s' = metadata s1.
Proof.
  unfold _check_and_set_scalar_value, call_inconverter, _check_value,
    _set_scalar_value.
  unfold_monad. intros Hr Hflag.
  repeat (case_match; simplify_eq /=); try congruence;
    repeat match goal with u : unit |- _ => destruct u end;
    match goal with
    | H : resize_if_applicable _ _ = _ |- _ =>
        pose proof (resize_if_applicable_frame _ _ _ _ H) as (_ & Hv & _)
    end;
    eexists _, _; (split; [done|]); (split; [done|]); rewrite Hv;
    eauto.
Qed.

(** X5: on a variable that is not an array, after a [set_value] that
    returns, [get_value] at the same position returns the value the
    connection accepted for the converted input, and at every other
    position what it returned before. *)
Theorem set_value_then_get_value self pos value s' :
  is_array self = false →
  set_value pos value self = (Ok tt, s') →
  ∃ converted stored,
    call_inconverter value self = (Ok converted, self) ∧
    accepts (_conn_impl self) (metadata self) converted = Some stored ∧
    get_value pos s' = (Ok stored, s') ∧
    ∀ other, other ≠ pos →
             (get_value other s').1 = (get_value other self).1.
Proof.
  intros Hscalar. unfold set_value, _check_and_set_value. unfold_monad.
  rewrite Hscalar.
  destruct (N.leb_spec (num_elements self) pos) as [|Hpos]; [done|].
  simpl. rewrite Hscalar. simpl.
  destruct (_check_and_set_scalar_value pos value None self)
    as [[flag|e] s1] eqn:Hbind; [|done].
  intros [= <-].
  pose proof (scalar_ok _ _ _ _ _ _ Hbind)
    as [(_ & _ & Harray & Hn & _) [(_ & [? ?] & _)|(Hflag & _)]]; [done|].
  destruct (scalar_stores_accepted _ _ _ _ _ _ Hbind Hflag)
    as (converted & stored & Hconv & Haccept & Hvalues & _).
  exists converted, stored. split; [done|]. split; [done|].
  unfold get_value, _get_scalar_value. unfold_monad.
  rewrite Harray, Hscalar, Hn. split.
  - destruct (N.leb_spec (num_elements self) pos); [lia|].
    simpl. by rewrite Hvalues, lookup_insert_eq.
  - intros other Hother.
    destruct (N.leb_spec (num_elements self) other); [done|].
    simpl. by rewrite Hvalues, lookup_insert_ne.
Qed.

(** X6: [get_all_values] and [get_value] agree.  On an array variable
    [get_value] ignores its position and returns what [get_all_values]
    returns; otherwise [get_all_values] returns a list of [num_elements]
    entries whose entry at each position is what [get_value] returns
    there. *)
Theorem get_all_values_agrees_with_get_value self :
  (is_array self = true →
   ∀ pos, get_value pos self = get_all_values self) ∧
  (is_array self = false →
   ∃ entries,
     get_all_values self = (Ok (PyList entries), self) ∧
     N.of_nat (length entries) = num_elements self ∧
     ∀ pos, pos < num_elements self →
            ∃ entry, entries !! N.to_nat pos = Some entry ∧
                     get_value pos self = (Ok entry, self)).
Proof.
  unfold get_all_values, get_value, _get_scalar_value. unfold_monad.
  split; intros ->; [done|].
  eexists. split; [done|]. split.
  - rewrite slots_from_length. apply N2Nat.id.
  - intros pos Hpos. eexists. split.
    + apply slots_from_lookup. lia.
    + destruct (N.leb_spec (num_elements self) pos); [lia|].
      by rewrite N.add_0_l, N2Nat.id.
Qed.

End reading.

Lemma empty_array_bind_witness :
  _check_and_set_value 0 (PyList []) None (Sample.filled_var true)
  = (Ok None, with_num_elements_in_array 0 (Sample.filled_var true)).
Proof. apply (empty_array_bind (Sample.filled_var true) 0 None eq_refl). Defined.

Lemma scalar_bind_of_none_witness :
  _check_and_set_scalar_value 1 PyNone None (Sample.filled_var false)
  = (Ok None,
     with_is_value_set true
       (with_values (<[1 := PyNone]> (_values (Sample.filled_var false)))
          (Sample.filled_var false))).
Proof.
  exact (scalar_bind_of_none (Sample.filled_var false) 1 PyNone PyNone None
           eq_refl eq_refl eq_refl).
Defined.

Lemma set_value_then_get_value_witness :
  ∃ converted stored,
    call_inconverter (PyStr "abc") (Sample.filled_var false)
      = (Ok converted, Sample.filled_var false) ∧
    accepts (_conn_impl (Sample.filled_var false))
      (metadata (Sample.filled_var false)) converted = Some stored ∧
    get_value 1 (set_value 1 (PyStr "abc") (Sample.filled_var false)).2
      = (Ok stored, (set_value 1 (PyStr "abc") (Sample.filled_var false)).2).
Proof.
  destruct (set_value_then_get_value (Sample.filled_var false) 1 (PyStr "abc")
              (set_value 1 (PyStr "abc") (Sample.filled_var false)).2)
    as (converted & stored & Hconv & Haccept & Hget & _);
    [reflexivity|reflexivity|].
  by exists converted, stored.
Defined.

Lemma get_all_values_agrees_with_get_value_witness :
  get_value 7 (Sample.filled_var true) = get_all_values (Sample.filled_var true) ∧
  ∃ entries,
    get_all_values (Sample.filled_var false)
      = (Ok (PyList entries), Sample.filled_var false) ∧
    N.of_nat (length entries) = 3.
Proof.
  destruct (get_all_values_agrees_with_get_value (Sample.filled_var true))
    as [Harray _].
  destruct (get_all_values_agrees_with_get_value (Sample.filled_var false))
    as [_ Hscalar].
  split; [exact (Harray eq_refl 7)|].
  destruct (Hscalar eq_refl) as (entries & Hall & Hlen & _).
  by exists entries.
Defined.

(** ** What no entry point changes *)

Section stability.
Context `{catalog : TypeCatalog}.

Lemma scalar_stable pos value was_set s r s' :
  _check_and_set_scalar_value pos value was_set s = (r, s') →
  same_frame s s' ∧ (_is_value_set s = true → _is_value_set s' = true).
Proof.
  destruct r as [flag|e]; intros Hbind.
  - apply scalar_ok in Hbind
      as [Hframe [(_ & _ & ->)|(_ & _ & Hset & _)]]; auto.
  - apply scalar_raise_unchanged in Hbind as ->.
    split; [apply same_frame_refl|done].
Qed.

Lemma elements_stable elements : ∀ i was_set s r s',
  check_and_set_elements i elements was_set s = (r, s') →
  _is_value_set s = true → _is_value_set s' = true.
Proof.
  induction elements as [|element rest IH]; intros i was_set s r s'; simpl.
  - unfold_monad. by intros [= <- <-].
  - unfold_monad.
    destruct (_check_and_set_scalar_value (to_uint32 i) element was_set s)
      as [[was_set1|e] s1] eqn:Hscalar;
      apply scalar_stable in Hscalar as [_ Hset].
    + destruct (cleared was_set1); [intros [= <- <-]; done|].
      intros Hrest ?. eapply IH; eauto.
    + by intros [= <- <-].
Qed.

Lemma check_and_set_value_stable pos value was_set s r s' :
  _check_and_set_value pos value was_set s = (r, s') →
  _conn_impl s' = _conn_impl s ∧ inconverter s' = inconverter s ∧
  is_array s' = is_array s ∧
  (_is_value_set s = true → _is_value_set s' = true).
Proof.
  unfold _check_and_set_value, _set_num_elements_in_array. unfold_monad.
  destruct (is_array s) eqn:Harray; simpl.
  - destruct value as [| | | | |elements];
      try (destruct was_set; intros [= <- <-]; by auto).
    case_match; [destruct was_set; intros [= <- <-]; by auto|].
    destruct (check_and_set_elements 0 elements was_set s)
      as [[[returned flag]|e] s1] eqn:Hloop;
      pose proof (elements_stable _ _ _ _ _ _ Hloop) as Hset;
      apply elements_frame in Hloop as [(Hc & Hi & Ha & _) _].
    + destruct returned; intros [= <- <-]; simpl;
        repeat split; congruence || done.
    + intros [= <- <-]. repeat split; congruence || done.
  - intros Hbind. apply scalar_stable in Hbind as [(Hc & Hi & Ha & _) Hset].
    repeat split; congruence || done.
Qed.

Lemma exec_stable o s :
  _conn_impl (exec o s) = _conn_impl s ∧
  inconverter (exec o s) = inconverter s ∧
  is_array (exec o s) = is_array s ∧
  (_is_value_set s = true → _is_value_set (exec o s) = true).
Proof.
  destruct o; simpl.
  - unfold _finalize_init, bound_metadata. unfold_monad.
    repeat (case_match; simplify_eq /=); auto.
  - unfold _on_reset_bind, _finalize_init, bound_metadata. unfold_monad.
    repeat (case_match; simplify_eq /=); auto.
  - unfold _set_metadata_from_type. unfold_monad.
    repeat (case_match; simplify_eq /=); auto.
  - unfold _set_metadata_from_value. unfold_monad.
    repeat (case_match; simplify_eq /=); auto.
  - destruct (_check_and_set_scalar_value pos value was_set s)
      as [r s'] eqn:Hcall. simpl.
    apply scalar_stable in Hcall as [(Hc & Hi & Ha & _) Hset]. auto.
  - destruct (_check_and_set_value pos value was_set s) as [r s'] eqn:Hcall.
    simpl. by apply check_and_set_value_stable in Hcall.
  - unfold set_value. unfold_monad.
    destruct (if is_array s then _ else _) as [[[]|e] s0] eqn:Hguard;
      (assert (s0 = s) as ->
         by (repeat (case_match; simplify_eq /=); done)); [|by auto].
    destruct (_check_and_set_value pos value None s) as [r s'] eqn:Hcall.
    apply check_and_set_value_stable in Hcall. by destruct r.
  - unfold get_value, _get_array_value, _get_scalar_value. unfold_monad.
    repeat (case_match; simplify_eq /=); auto.
  - unfold get_all_values, _get_array_value. unfold_monad.
    repeat (case_match; simplify_eq /=); auto.
Qed.

(** X7: no entry point, and so no sequence of entry points, changes
    whether the variable is an array, its connection or its in
    converter; none lowers [num_elements]; and none clears
    [_is_value_set] once a bind has set it. *)
Theorem configuration_is_stable ops self :
  _conn_impl (exec_all ops self) = _conn_impl self ∧
  inconverter (exec_all ops self) = inconverter self ∧
  is_array (exec_all ops self) = is_array self ∧
  num_elements self ≤ num_elements (exec_all ops self) ∧
  (_is_value_set self = true → _is_value_set (exec_all ops self) = true).
Proof.
  unfold exec_all. revert self.
  induction ops as [|o ops IH]; intros self; simpl.
  - repeat split; [lia|done].
  - destruct (IH (exec o self)) as (Hc & Hi & Ha & Hn & Hset).
    destruct (exec_stable o self) as (Hc' & Hi' & Ha' & Hset').
    destruct (exec_counts o self) as [Hn' _].
    repeat split; [congruence..|lia|auto].
Qed.

(** X8: the two inferences of metadata write the metadata and nothing
    else, and when they raise (no catalog entry, or mixed element
    types) they have not written the metadata either. *)
Theorem metadata_inference_frame self value is_plsql typ :
  (∀ r s', _set_metadata_from_value value is_plsql self = (r, s') →
           s' = with_metadata (metadata s') self ∧
           (∀ e, r = Raise e → s' = self)) ∧
  (∀ r s', _set_metadata_from_type typ self = (r, s') →
           s' = with_metadata (metadata s') self ∧
           (∀ e, r = Raise e → s' = self)).
Proof.
  assert (∀ s : BaseVarImpl, s = with_metadata (metadata s) s) as Hsame
    by (by intros []).
  split; intros r s'.
  - unfold _set_metadata_from_value. unfold_monad. intros Hr.
    repeat (case_match; simplify_eq /=); by auto.
  - unfold _set_metadata_from_type. unfold_monad. intros Hr.
    repeat (case_match; simplify_eq /=); by auto.
Qed.

(** X9: two resets of the bind in a row leave [num_elements] at the
    largest of its old value and the two row counts; and a reset with a
    row count that is not larger returns without touching the variable
    (the metadata is not finalized again). *)
Theorem on_reset_bind_composes self a b :
  num_elements (exec_all [Op_on_reset_bind a; Op_on_reset_bind b] self)
  = N.max (num_elements self) (N.max a b) ∧
  (a ≤ num_elements self → _on_reset_bind a self = (Ok tt, self)).
Proof.
  split.
  - unfold exec_all. simpl.
    destruct (_on_reset_bind a self) as [r1 s1] eqn:Hfirst. simpl.
    destruct (_on_reset_bind b s1) as [r2 s2] eqn:Hsecond. simpl.
    apply on_reset_bind_counts in Hfirst as [_ Hn1].
    apply on_reset_bind_counts in Hsecond as [_ ->]. rewrite Hn1.
    destruct (N.ltb_spec (num_elements self) a);
      [destruct (N.ltb_spec a b)|destruct (N.ltb_spec (num_elements self) b)];
      lia.
  - intros Hle. unfold _on_reset_bind. unfold_monad.
    by destruct (N.ltb_spec (num_elements self) a); [lia|].
Qed.

End stability.

Lemma configuration_is_stable_witness :
  is_array (exec_all [Op_on_reset_bind 9;
                      Op_set_value 0 (PyList [PyStr "a"; PyInt 5]);
                      Op_set_metadata_from_value (PyInt 1) false]
              (Sample.varchar_var true 2)) = true ∧
  _is_value_set (exec_all [Op_set_value 0 (PyList [PyStr "a"; PyInt 5]);
                           Op_set_metadata_from_value (PyInt 1) false;
                           Op_finalize_init]
                   (Sample.varchar_var true 2)) = true.
Proof.
  split.
  - apply (configuration_is_stable
             [Op_on_reset_bind 9;
              Op_set_value 0 (PyList [PyStr "a"; PyInt 5]);
              Op_set_metadata_from_value (PyInt 1) false]
             (Sample.varchar_var true 2)).
  - apply (configuration_is_stable
             [Op_set_metadata_from_value (PyInt 1) false; Op_finalize_init]
             (exec (Op_set_value 0 (PyList [PyStr "a"; PyInt 5]))
                (Sample.varchar_var true 2))).
    reflexivity.
Defined.

Lemma metadata_inference_frame_witness :
  (_set_metadata_from_value (PyInt 7) false (Sample.filled_var false)).2
  = Sample.filled_var false.
Proof.
  destruct (metadata_inference_frame (Sample.filled_var false) (PyInt 7) false
              PyNone) as [Hvalue _].
  destruct (Hvalue (Raise (ERR_MIXED_ELEMENT_TYPES (PyInt 7)))
              (_set_metadata_from_value (PyInt 7) false
                 (Sample.filled_var false)).2) as [_ Hraise];
    [reflexivity|].
  exact (Hraise _ eq_refl).
Defined.

Lemma on_reset_bind_composes_witness :
  num_elements (exec_all [Op_on_reset_bind 8; Op_on_reset_bind 5]
                  (Sample.filled_var true)) = 8 ∧
  _on_reset_bind 2 (Sample.filled_var true)
  = (Ok tt, Sample.filled_var true).
Proof.
  destruct (on_reset_bind_composes (Sample.filled_var true) 8 5)
    as [Hmax _].
  destruct (on_reset_bind_composes (Sample.filled_var true) 2 0)
    as [_ Hnoop].
  split; [exact Hmax|]. apply Hnoop. by vm_compute.
Defined.

(** ** Inference over the elements of a list *)

Lemma foldr_max_start (sizes : list N) : ∀ a x,
  foldr N.max (N.max a x) sizes = N.max x (foldr N.max a sizes).
Proof. induction sizes as [|size sizes IH]; intros a x; simpl; [lia|]. rewrite IH. lia. Qed.

Section inference_over_list.
Context `{catalog : TypeCatalog}.

Lemma widen_step s own value is_plsql md :
  metadata s = Some own →
  inferred_metadata (_conn_impl s) value is_plsql = Some md →
  dbtype md = dbtype own → objtype md = objtype own →
  exec (Op_set_metadata_from_value value is_plsql) s
  = with_metadata
      (Some (with_max_size (N.max (max_size own) (max_size md)) own)) s.
Proof.
  intros Hown Hmd Hdb Hobj. simpl.
  unfold _set_metadata_from_value. unfold_monad.
  rewrite Hmd, Hown.
  rewrite (bool_decide_eq_true_2 _ Hdb), (bool_decide_eq_true_2 _ Hobj).
  simpl. destruct (N.ltb_spec (max_size own) (max_size md)); simpl.
  - by rewrite N.max_r by lia.
  - rewrite N.max_l by lia.
    by rewrite with_max_size_same, with_metadata_same.
Qed.

Lemma infer_each_widens values is_plsql : ∀ mds s own,
  metadata s = Some own →
  Forall2 (λ value md,
             inferred_metadata (_conn_impl s) value is_plsql = Some md ∧
             dbtype md = dbtype own ∧ objtype md = objtype own)
          values mds →
  metadata (exec_all (infer_each values is_plsql) s)
  = Some (with_max_size (foldr N.max (max_size own) (max_size <$> mds)) own).
Proof.
  induction values as [|value values IH]; intros mds s own Hown Hall.
  - apply Forall2_nil_inv_l in Hall as ->. simpl.
    by rewrite with_max_size_same.
  - apply Forall2_cons_inv_l in Hall
      as (md & mds' & (Hmd & Hdb & Hobj) & Hrest & ->).
    unfold infer_each, exec_all. cbn [fmap list_fmap foldl].
    rewrite (widen_step _ _ _ _ _ Hown Hmd Hdb Hobj).
    fold (infer_each values is_plsql).
    fold (exec_all (infer_each values is_plsql)
            (with_metadata
               (Some (with_max_size (N.max (max_size own) (max_size md)) own))
               s)).
    erewrite IH; [|done|exact Hrest].
    simpl. rewrite foldr_max_start. by destruct own.
Qed.

(** X10: when metadata is inferred from each value of a non-empty list
    in turn, on a variable without metadata, and the inferred entries
    all have the database type and object type of the first, the
    variable ends with the first entry widened to the largest of their
    sizes: the order of the later values does not matter. *)
Theorem inferred_size_is_the_maximum self is_plsql value values md mds :
  metadata self = None →
  Forall2 (λ value' md',
             inferred_metadata (_conn_impl self) value' is_plsql = Some md' ∧
             dbtype md' = dbtype md ∧ objtype md' = objtype md)
          (value :: values) (md :: mds) →
  metadata (exec_all (infer_each (value :: values) is_plsql) self)
  = Some (with_max_size (foldr N.max 0 (max_size <$> md :: mds)) md).
Proof.
  intros Hunset Hall.
  apply Forall2_cons_1 in Hall as [(Hmd & _ & _) Hrest].
  unfold infer_each, exec_all. cbn [fmap list_fmap foldl].
  assert (exec (Op_set_metadata_from_value value is_plsql) self
          = with_metadata (Some md) self) as ->.
  { simpl. unfold _set_metadata_from_value. unfold_monad.
    by rewrite Hmd, Hunset. }
  fold (infer_each values is_plsql).
  fold (exec_all (infer_each values is_plsql) (with_metadata (Some md) self)).
  erewrite infer_each_widens; [|done|exact Hrest].
  f_equal. cbn [fmap list_fmap foldr]. f_equal.
  generalize (max_size <$> mds). intros sizes.
  rewrite <- (N.max_0_l (max_size md)) at 1.
  rewrite foldr_max_start. done.
Qed.

End inference_over_list.

Lemma inferred_size_is_the_maximum_witness :
  metadata (exec_all (infer_each [PyStr "ab"; PyStr "abcde"; PyStr "abc"] false)
              (with_metadata None (Sample.filled_var true)))
  = Some (mkMetadata Sample.DB_TYPE_VARCHAR None 5 0).
Proof.
  apply (inferred_size_is_the_maximum
           (with_metadata None (Sample.filled_var true)) false
           (PyStr "ab") [PyStr "abcde"; PyStr "abc"]
           (mkMetadata Sample.DB_TYPE_VARCHAR None 2 0)
           [mkMetadata Sample.DB_TYPE_VARCHAR None 5 0;
            mkMetadata Sample.DB_TYPE_VARCHAR None 3 0]);
    [reflexivity|].
  repeat constructor.
Defined.

(** ** The elements of an array bind, one by one *)

Section element_by_element.
Context `{catalog : TypeCatalog}.

Lemma call_inconverter_frame value s s' :
  inconverter s' = inconverter s →
  ∀ converted, call_inconverter value s = (Ok converted, s) →
               call_inconverter value s' = (Ok converted, s').
Proof.
  unfold call_inconverter. unfold_monad. intros ->.
  intros converted Hconv. repeat (case_match; simplify_eq /=); done.
Qed.

(** The loop writes no slot below its first position. *)
Lemma elements_frame_below elements : ∀ i was_set s r s',
  i + N.of_nat (length elements) ≤ 2 ^ 32 →
  check_and_set_elements i elements was_set s = (r, s') →
  ∀ j, j < i → _values s' !! j = _values s !! j.
Proof.
  induction elements as [|element rest IH]; intros i was_set s r s' Hrange;
    cbn [check_and_set_elements length].
  - unfold_monad. by intros [= <- <-].
  - cbn [length] in Hrange. rewrite Nat2N.inj_succ in Hrange. unfold_monad.
    destruct (_check_and_set_scalar_value (to_uint32 i) element was_set s)
      as [[was_set1|e] s1] eqn:Hscalar.
    + apply scalar_ok in Hscalar as [_ Hcases].
      assert (∀ j, j < i → _values s1 !! j = _values s !! j) as Hslots.
      { intros j Hj.
        destruct Hcases as [(_ & _ & ->)|(_ & _ & _ & stored & ->)]; [done|].
        apply lookup_insert_ne. rewrite to_uint32_small by lia. lia. }
      destruct (cleared was_set1).
      * intros [= <- <-]. done.
      * intros Hrest j Hj. rewrite <- (Hslots j Hj).
        eapply IH; [|exact Hrest|]; lia.
    + apply scalar_raise_unchanged in Hscalar as ->. by intros [= <- <-].
Qed.

(** A loop that runs to the end, cut at one of its elements: the loop
    over the elements before it, the scalar bind of that element, and
    the loop over the elements after it. *)
Lemma elements_split elements : ∀ k element i was_set s was_set' s',
  check_and_set_elements i elements was_set s = (Ok (false, was_set'), s') →
  elements !! k = Some element →
  ∃ flag0 s0 flag1 s1,
    check_and_set_elements i (take k elements) was_set s
      = (Ok (false, flag0), s0) ∧
    _check_and_set_scalar_value (to_uint32 (i + N.of_nat k)) element flag0 s0
      = (Ok flag1, s1) ∧
    cleared flag1 = false ∧
    check_and_set_elements (i + N.of_nat k + 1) (drop (S k) elements) flag1 s1
      = (Ok (false, was_set'), s').
Proof.
  induction elements as [|first rest IH];
    intros k element i was_set s was_set' s' Hloop Hk; [done|].
  cbn [check_and_set_elements] in Hloop. unfold_monad.
  destruct (_check_and_set_scalar_value (to_uint32 i) first was_set s)
    as [[was_set1|e] s1] eqn:Hscalar; [|done].
  destruct (cleared was_set1) eqn:Hcleared; [done|].
  destruct k as [|k].
  - simpl in Hk. injection Hk as <-.
    exists was_set, s, was_set1, s1. simpl. unfold_monad.
    rewrite N.add_0_r. split; [done|]. split; [done|]. split; [done|].
    by rewrite N.add_1_r.
  - simpl in Hk.
    destruct (IH k element (N.succ i) was_set1 s1 was_set' s' Hloop Hk)
      as (flag0 & s0 & flag1 & s2 & Hpre & Hbind & Hflag & Hpost).
    exists flag0, s0, flag1, s2.
    replace (i + N.of_nat (S k)) with (N.succ i + N.of_nat k) by lia.
    split; [|done].
    cbn [take check_and_set_elements]. unfold_monad.
    by rewrite Hscalar, Hcleared.
Qed.

(** The same cut, with what the slot of the element holds at the end. *)
Lemma elements_stored_at elements k element i was_set s was_set' s' :
  i + N.of_nat (length elements) ≤ 2 ^ 32 →
  check_and_set_elements i elements was_set s = (Ok (false, was_set'), s') →
  elements !! k = Some element →
  ∃ flag0 s0 flag1 s1,
    check_and_set_elements i (take k elements) was_set s
      = (Ok (false, flag0), s0) ∧
    _check_and_set_scalar_value (i + N.of_nat k) element flag0 s0
      = (Ok flag1, s1) ∧
    cleared flag1 = false ∧
    check_and_set_elements (i + N.of_nat k + 1) (drop (S k) elements) flag1 s1
      = (Ok (false, was_set'), s') ∧
    _values s' !! (i + N.of_nat k) = _values s1 !! (i + N.of_nat k).
Proof.
  intros Hrange Hloop Hk.
  pose proof (lookup_lt_Some _ _ _ Hk) as Hlt.
  destruct (elements_split _ _ _ _ _ _ _ _ Hloop Hk)
    as (flag0 & s0 & flag1 & s1 & Hpre & Hbind & Hflag & Hpost).
  rewrite to_uint32_small in Hbind by lia.
  exists flag0, s0, flag1, s1. repeat (split; [done|]).
  eapply elements_frame_below; [|exact Hpost|lia].
  rewrite length_drop. lia.
Qed.

(** X11: a soft array bind (flag set on entry) whose list fits stops at
    the first element the connection rejects: it clears the flag and
    returns; [num_elements_in_array] and the slots from that element on
    are as before, but the elements before it stay bound, as the loop
    over them left the variable. *)
Theorem soft_array_bind_stops_at_rejected
    self pos pre bad post s1 converted :
  is_array self = true →
  N.of_nat (length (pre ++ bad :: post)) ≤ num_elements self →
  num_elements self < 2 ^ 32 →
  check_and_set_elements 0 pre (Some true) self
    = (Ok (false, Some true), s1) →
  call_inconverter bad s1 = (Ok converted, s1) →
  accepts (_conn_impl s1) (metadata s1) converted = None →
  _check_and_set_value pos (PyList (pre ++ bad :: post)) (Some true) self
    = (Ok (Some false), s1) ∧
  num_elements_in_array s1 = num_elements_in_array self ∧
  (∀ j, N.of_nat (length pre) ≤ j → _values s1 !! j = _values self !! j) ∧
  (∀ j, j < N.of_nat (length pre) → is_Some (_values s1 !! j)).
Proof.
  intros Harray Hfits Hrange Hpre Hconv Hrej.
  rewrite length_app in Hfits. cbn [length] in Hfits.
  pose proof (elements_frame _ _ _ _ _ _ Hpre) as [Hframe Hslots].
  destruct (unacceptable_scalar_soft_or_raise s1 (N.of_nat (length pre))
              bad converted Hconv Hrej) as [Hsoft _].
  split; [|split; [apply Hframe|split]].
  - rewrite array_bind_within_capacity; [|done|].
    + rewrite (elements_app _ _ _ _ _ _ _ Hpre). simpl. unfold_monad.
      rewrite N.add_0_l, to_uint32_small by lia. by rewrite Hsoft.
    + rewrite length_app. cbn [length].
      pose proof (to_uint32_le (N.of_nat (length pre + S (length post)))).
      lia.
  - intros j Hj. apply Hslots. lia.
  - intros j Hj. eapply elements_all_set; [|exact Hpre|]; lia.
Qed.

(** X12: after an array bind that returns in the default mode, for a
    list that fits, the array reads back (at any position) as a list
    with one entry per element of the input, each the accepted form of
    that element: the in converter is applied to the elements, not to
    the list. *)
Theorem array_bind_then_get_value self pos elements s' :
  is_array self = true →
  N.of_nat (length elements) ≤ num_elements self →
  num_elements self < 2 ^ 32 →
  _check_and_set_value pos (PyList elements) None self = (Ok None, s') →
  ∃ stored,
    (∀ pos', get_value pos' s' = (Ok (PyList stored), s')) ∧
    Forall2 (accepted_form self) elements stored.
Proof.
  intros Harray Hfits Hrange.
  assert (to_uint32 (N.of_nat (length elements)) = N.of_nat (length elements))
    as Hlen by (apply to_uint32_small; lia).
  rewrite array_bind_within_capacity; [|done|by rewrite Hlen].
  destruct (check_and_set_elements 0 elements None self)
    as [[[returned flag]|e] s1] eqn:Hloop; [|done].
  destruct (elements_default_mode _ _ _ _ _ _ Hloop) as [-> ->].
  rewrite Hlen. intros [= <-].
  pose proof (elements_frame _ _ _ _ _ _ Hloop) as [(_ & _ & Ha & _) _].
  exists (slots_from (_values s1) 0 (length elements)). split.
  - intros pos'. unfold get_value, _get_array_value. unfold_monad. simpl.
    rewrite Ha, Harray. simpl. by rewrite Nat2N.id.
  - apply Forall2_same_length_lookup_2; [by rewrite slots_from_length|].
    intros k element stored Hk Hstored.
    pose proof (lookup_lt_Some _ _ _ Hk) as Hlt.
    rewrite slots_from_lookup in Hstored by done.
    destruct (elements_stored_at elements k element 0 None self None s1)
      as (flag0 & s0 & flag1 & s2 & Hpre & Hbind & Hflag & _ & Hslot);
      [lia|done|done|].
    destruct (scalar_stores_accepted _ _ _ _ _ _ Hbind Hflag)
      as (converted & kept & Hconv & Haccept & Hvalues & _).
    pose proof (elements_frame _ _ _ _ _ _ Hpre) as [(Hc & Hi & _) _].
    rewrite Hslot, Hvalues, lookup_insert_eq in Hstored.
    injection Hstored as <-.
    exists converted, (metadata s0). split.
    + by apply (call_inconverter_frame _ s0 self).
    + by rewrite <- Hc.
Qed.

End element_by_element.

Lemma soft_array_bind_stops_at_rejected_witness :
  _check_and_set_value 0 (PyList ([PyStr "a"] ++ PyInt 5 :: [PyStr "b"]))
    (Some true) (Sample.filled_var true)
  = (Ok (Some false),
     (check_and_set_elements 0 [PyStr "a"] (Some true)
        (Sample.filled_var true)).2) ∧
  _values (check_and_set_elements 0 [PyStr "a"] (Some true)
             (Sample.filled_var true)).2 !! 0 = Some (PyStr "a").
Proof.
  destruct (soft_array_bind_stops_at_rejected
              (Sample.filled_var true) 0 [PyStr "a"] (PyInt 5) [PyStr "b"]
              (check_and_set_elements 0 [PyStr "a"] (Some true)
                 (Sample.filled_var true)).2
              (PyInt 5))
    as (Hsoft & _);
    [reflexivity|by vm_compute|reflexivity|reflexivity|reflexivity
    |reflexivity|].
  split; [exact Hsoft|reflexivity].
Defined.

Lemma array_bind_then_get_value_witness :
  ∃ stored,
    get_value 0 (_check_and_set_value 0 (PyList [PyStr "a"; PyStr "b"]) None
                   (Sample.filled_var true)).2
    = (Ok (PyList stored),
       (_check_and_set_value 0 (PyList [PyStr "a"; PyStr "b"]) None
          (Sample.filled_var true)).2) ∧
    length stored = 2%nat.
Proof.
  destruct (array_bind_then_get_value (Sample.filled_var true) 0
              [PyStr "a"; PyStr "b"]
              (_check_and_set_value 0 (PyList [PyStr "a"; PyStr "b"]) None
                 (Sample.filled_var true)).2)
    as (stored & Hget & Hforms);
    [reflexivity|by vm_compute|reflexivity|reflexivity|].
  exists stored. split; [apply Hget|].
  symmetry. exact (Forall2_length _ _ _ Hforms).
Defined.

(** ** Room for what is stored *)

Section room.
Context `{catalog : TypeCatalog}.
Hypothesis finalize_size : finalize_keeps_size.

Lemma fits_grows s s' stored :
  max_size_grows s s' → fits s stored → fits s' stored.
Proof.
  intros Hgrows [->|(md & n & Hmd & Hlen & Hle)]; [by left|].
  destruct (Hgrows md Hmd) as (md' & Hmd' & Hle').
  right. exists md', n. repeat split; [done..|lia].
Qed.

(** On a sized type the resize block that returns leaves room for the
    value. *)
Lemma resize_makes_room stored s s1 :
  sized s →
  resize_if_applicable stored s = (Ok tt, s1) →
  fits s1 stored.
Proof.
  intros (md & Hmd & Hsized) Hr.
  destruct stored as [| | |text|bytes|items]; try (by left);
    unfold resize_if_applicable, bound_metadata in Hr; unfold_monad;
    simpl in Hr; rewrite Hmd in Hr;
    (destruct (N.eqb_spec (default_size (dbtype md)) 0); [done|]);
    simpl in Hr; try done; right;
    match type of Hr with
    | context [max_size md <? ?size] =>
        destruct (N.ltb_spec (max_size md) size) as [Hlt|Hge]
    end;
    try (injection Hr as <-; eexists md, _; by repeat split);
    destruct (resize_grows finalize_size _ _ _ _ _ Hmd Hsized Hlt Hr)
      as (md' & Hmd' & Hle);
    by eexists md', _.
Qed.

Lemma scalar_bind_makes_room s pos value was_set was_set' s' :
  sized s →
  _check_and_set_scalar_value pos value was_set s = (Ok was_set', s') →
  cleared was_set' = false →
  ∃ stored, _values s' !! pos = Some stored ∧ fits s' stored.
Proof.
  intros Hsized Hbind Hflag.
  destruct (scalar_stores_accepted _ _ _ _ _ _ Hbind Hflag)
    as (converted & stored & _ & _ & Hvalues & s1 & Hresize & Hmd).
  exists stored. split; [by rewrite Hvalues, lookup_insert_eq|].
  destruct (resize_makes_room _ _ _ Hsized Hresize)
    as [->|(md & n & Hmd1 & Hlen & Hle)]; [by left|].
  right. exists md, n. by rewrite Hmd.
Qed.

(** X13: given that the absent [OracleMetadata._finalize_init] does not
    shrink a size set on a sized type, a [set_value] that returns, on a
    variable of a sized type that is not an array, ends with room for
    what it stored: the slot holds a value that is [None] or whose
    length is at most [max_size]. *)
Theorem stored_scalar_fits self pos value s' :
  is_array self = false →
  sized self →
  set_value pos value self = (Ok tt, s') →
  ∃ stored, _values s' !! pos = Some stored ∧ fits s' stored.
Proof.
  intros Hscalar Hsized. unfold set_value, _check_and_set_value.
  unfold_monad. rewrite Hscalar.
  destruct (N.leb_spec (num_elements self) pos); [done|].
  simpl. rewrite Hscalar. simpl.
  destruct (_check_and_set_scalar_value pos value None self)
    as [[flag|e] s1] eqn:Hbind; [|done].
  intros [= <-].
  pose proof (scalar_ok _ _ _ _ _ _ Hbind)
    as [_ [(_ & [? ?] & _)|(Hflag & _)]]; [done|].
  by eapply scalar_bind_makes_room.
Qed.

Hypothesis finalize_dbtype : finalize_keeps_dbtype.

Lemma resize_if_applicable_sized value s r s' :
  resize_if_applicable value s = (r, s') → sized s → sized s'.
Proof.
  intros Hr. apply resize_only_upwards in Hr
    as [->|(md & size & Hmd & Hsized & _ & Hresize)]; [done|].
  intros _. unfold _resize, bound_metadata in Hresize. unfold_monad.
  rewrite Hmd in Hresize. injection Hresize as <- <-.
  eexists. split; [done|]. by rewrite finalize_dbtype.
Qed.

Lemma scalar_sized pos value was_set s r s' :
  _check_and_set_scalar_value pos value was_set s = (r, s') →
  sized s → sized s'.
Proof.
  unfold _check_and_set_scalar_value, call_inconverter, _check_value,
    _set_scalar_value.
  unfold_monad. intros Hr Hsized.
  repeat (case_match; simplify_eq /=); try done;
    match goal with
    | H : resize_if_applicable _ _ = _ |- _ =>
        pose proof (resize_if_applicable_sized _ _ _ _ H Hsized)
    end; by unfold sized in *.
Qed.

Lemma elements_sized elements : ∀ i was_set s r s',
  check_and_set_elements i elements was_set s = (r, s') →
  sized s → sized s'.
Proof.
  induction elements as [|element rest IH]; intros i was_set s r s'; simpl.
  - unfold_monad. by intros [= <- <-].
  - unfold_monad.
    destruct (_check_and_set_scalar_value (to_uint32 i) element was_set s)
      as [[was_set1|e] s1] eqn:Hscalar;
      pose proof (scalar_sized _ _ _ _ _ _ Hscalar) as Hstep.
    + destruct (cleared was_set1); [intros [= <- <-]; done|].
      intros Hrest ?. eapply IH; eauto.
    + intros [= <- <-]. done.
Qed.

(** X14: given in addition that the absent [_finalize_init] keeps the
    database type, an array bind that returns in the default mode, for
    a list that fits a variable of a sized type, ends with room for
    every element it stored: each of the first [len] slots holds a value
    that is [None] or no longer than the final [max_size]. *)
Theorem stored_elements_fit self pos elements s' :
  is_array self = true →
  sized self →
  N.of_nat (length elements) ≤ num_elements self →
  num_elements self < 2 ^ 32 →
  _check_and_set_value pos (PyList elements) None self = (Ok None, s') →
  ∀ j, j < N.of_nat (length elements) →
       ∃ stored, _values s' !! j = Some stored ∧ fits s' stored.
Proof.
  intros Harray Hsized Hfits Hrange.
  assert (to_uint32 (N.of_nat (length elements)) = N.of_nat (length elements))
    as Hlen by (apply to_uint32_small; lia).
  rewrite array_bind_within_capacity; [|done|by rewrite Hlen].
  destruct (check_and_set_elements 0 elements None self)
    as [[[returned flag]|e] s1] eqn:Hloop; [|done].
  destruct (elements_default_mode _ _ _ _ _ _ Hloop) as [-> ->].
  intros [= <-] j Hj.
  destruct (lookup_lt_is_Some_2 elements (N.to_nat j) ltac:(lia))
    as [element Hk].
  destruct (elements_stored_at elements (N.to_nat j) element 0 None self
              None s1)
    as (flag0 & s0 & flag1 & s2 & Hpre & Hbind & Hflag & Hpost & Hslot);
    [lia|done|done|].
  rewrite N.add_0_l, N2Nat.id in *.
  destruct (scalar_bind_makes_room s0 j element flag0 flag1 s2)
    as (stored & Hstored & Hroom); [by eapply elements_sized|done|done|].
  exists stored. simpl. split; [by rewrite Hslot|].
  apply (fits_grows s2); [|done].
  apply (max_size_grows_trans _ s1);
    [by eapply (elements_grow finalize_size)|].
  intros md Hmd. exists md. split; [done|lia].
Qed.

End room.

Lemma sample_finalize_keeps_dbtype : @finalize_keeps_dbtype Sample.catalog.
Proof. by intros [[| |[|[p|p|]]] obj size buffer]. Qed.

Lemma sample_filled_var_sized array :
  @sized Sample.catalog (Sample.filled_var array).
Proof. eexists. split; [reflexivity|]. by vm_compute. Qed.

Lemma stored_scalar_fits_witness :
  ∃ stored,
    _values (set_value 1 (PyStr "abcdef") (Sample.filled_var false)).2 !! 1
      = Some stored ∧
    fits (set_value 1 (PyStr "abcdef") (Sample.filled_var false)).2 stored.
Proof.
  apply (stored_scalar_fits sample_finalize_keeps_size
           (Sample.filled_var false) 1 (PyStr "abcdef"));
    [reflexivity|apply sample_filled_var_sized|reflexivity].
Defined.

Lemma stored_elements_fit_witness :
  ∃ stored,
    _values (_check_and_set_value 0 (PyList [PyStr "a"; PyStr "abcdef"]) None
               (Sample.filled_var true)).2 !! 1 = Some stored ∧
    fits (_check_and_set_value 0 (PyList [PyStr "a"; PyStr "abcdef"]) None
            (Sample.filled_var true)).2 stored.
Proof.
  apply (stored_elements_fit sample_finalize_keeps_size
           sample_finalize_keeps_dbtype
           (Sample.filled_var true) 0 [PyStr "a"; PyStr "abcdef"]);
    [reflexivity|apply sample_filled_var_sized|by vm_compute|reflexivity
    |reflexivity|reflexivity].
Defined.

(** ** The element count of a bind that fails *)

Section failed_bind.
Context `{catalog : TypeCatalog}.

(** A loop that runs to the end hands the flag back as it got it. *)
Lemma elements_keep_flag elements : ∀ i was_set s was_set' s',
  check_and_set_elements i elements was_set s = (Ok (false, was_set'), s') →
  was_set' = was_set.
Proof.
  induction elements as [|element rest IH]; intros i was_set s was_set' s';
    simpl.
  - unfold_monad. by intros [= <- <-].
  - unfold_monad.
    destruct (_check_and_set_scalar_value (to_uint32 i) element was_set s)
      as [[was_set1|e] s1] eqn:Hscalar; [|done].
    destruct (cleared was_set1) eqn:Hcleared; [done|].
    apply scalar_ok in Hscalar as [_ [(? & _)|(_ & -> & _)]]; [congruence|].
    apply IH.
Qed.

(** X15: a bind that fails does not change the element counts, whatever
    the variable and the value: neither when it raises, nor when it was
    given a set flag and returns with the flag cleared. *)
Theorem failed_bind_keeps_counts self pos value :
  (∀ e s', _check_and_set_value pos value None self = (Raise e, s') →
           num_elements_in_array s' = num_elements_in_array self ∧
           num_elements s' = num_elements self) ∧
  (∀ s', _check_and_set_value pos value (Some true) self
           = (Ok (Some false), s') →
         num_elements_in_array s' = num_elements_in_array self ∧
         num_elements s' = num_elements self).
Proof.
  assert (∀ was_set r s',
            _check_and_set_value pos value was_set self = (r, s') →
            (∀ flag, r = Ok flag → was_set = Some true ∧ flag = Some false) →
            num_elements_in_array s' = num_elements_in_array self ∧
            num_elements s' = num_elements self) as Hgeneral.
  { intros was_set r s'.
    unfold _check_and_set_value, _set_num_elements_in_array. unfold_monad.
    destruct (is_array self); simpl.
    - destruct value as [| | | | |elements];
        try (destruct was_set; intros [= <- <-]; done).
      case_match; [destruct was_set; intros [= <- <-]; done|].
      destruct (check_and_set_elements 0 elements was_set self)
        as [[[returned flag]|e] s1] eqn:Hloop.
      + destruct returned; intros [= <- <-] Hfailed.
        * by apply elements_frame in Hloop as [(_ & _ & _ & ? & ?) _].
        * apply elements_keep_flag in Hloop as ->.
          destruct (Hfailed _ eq_refl) as [-> [=]].
      + intros [= <- <-] _.
        by apply elements_frame in Hloop as [(_ & _ & _ & ? & ?) _].
    - intros Hbind _. destruct r.
      + by apply scalar_ok in Hbind as [(_ & _ & _ & ? & ?) _].
      + by apply scalar_raise_unchanged in Hbind as ->. }
  split.
  - intros e s' Hbind. by eapply Hgeneral.
  - intros s' Hbind. eapply Hgeneral; [exact Hbind|]. by intros flag [= <-].
Qed.

End failed_bind.

Lemma failed_bind_keeps_counts_witness :
  num_elements_in_array
    (_check_and_set_value 0 (PyList [PyStr "a"; PyInt 5]) None
       (Sample.filled_var true)).2 = 3 ∧
  num_elements_in_array
    (_check_and_set_value 0 (PyList [PyStr "a"; PyInt 5]) (Some true)
       (Sample.filled_var true)).2 = 3.
Proof.
  destruct (failed_bind_keeps_counts (Sample.filled_var true) 0
              (PyList [PyStr "a"; PyInt 5])) as [Hraise Hsoft].
  split.
  - apply (Hraise ArgumentTypeError). reflexivity.
  - apply Hsoft. reflexivity.
Defined.
